(** * The scoped configuration resolver of the spell-checker client

    A shallow embedding of [client/src/settings/settings.ts] and of the command
    table of [client/src/extension.ts], with the host editor's configuration
    store, the file system and the promise plumbing made explicit.

    Strings are sequences of code units (here the code units below 256, which
    Rocq's [string] holds); comparisons and sorting are by code unit, as
    JavaScript's default [Array.prototype.sort] does. *)

From Stdlib Require Import Ascii.
From stdpp Require Import base strings list gmap sorting.
Local Open Scope string_scope.
Local Open Scope list_scope.
Set Warnings "-clear-no-such-hyp".

(** ** JavaScript built-ins used by the source *)
Module JS.

(** [s.split(sep)] for a one-character separator: never the empty array,
    [''.split(',')] is [['']]. *)
Fixpoint split (sep : ascii) (s : string) : list string :=
  match s with
  | "" => [""]
  | String c s' =>
      if Ascii.eqb c sep then "" :: split sep s'
      else match split sep s' with
           | [] => [String c ""]
           | w :: ws => String c w :: ws
           end
  end.

(** [l.join(sep)]: the empty array joins to the empty string. *)
Fixpoint join (sep : string) (l : list string) : string :=
  match l with
  | [] => ""
  | x :: l' =>
      match l' with
      | [] => x
      | _ :: _ => x +:+ sep +:+ join sep l'
      end
  end.

(** White space and line terminators among the code units below 256: tab,
    line feed, vertical tab, form feed, carriage return, space, no-break
    space. *)
Definition isWhiteSpace (c : ascii) : bool :=
  match c with
  | "009" | "010" | "011" | "012" | "013" | " " | "160" => true
  | _ => false
  end%char.

(** [s.trimStart()] and [s.trimEnd()] *)
Fixpoint trimStart (s : string) : string :=
  match s with
  | "" => ""
  | String c s' => if isWhiteSpace c then trimStart s' else s
  end.

Fixpoint trimEnd (s : string) : string :=
  match s with
  | "" => ""
  | String c s' =>
      match trimEnd s' with
      | "" => if isWhiteSpace c then "" else String c ""
      | t => String c t
      end
  end.

(** [s.trim()] *)
Definition trim (s : string) : string := trimEnd (trimStart s).

(** [toLowerCase] on one code unit below 256: A-Z and the Latin-1 capitals
    (0xC0-0xDE but the multiplication sign 0xD7) move up by 32. *)
Definition lowerChar (c : ascii) : ascii :=
  let n := nat_of_ascii c in
  if (65 <=? n)%nat && (n <=? 90)%nat then ascii_of_nat (n + 32)
  else if (192 <=? n)%nat && (n <=? 222)%nat && negb (n =? 215)%nat
       then ascii_of_nat (n + 32)
       else c.

(** [s.toLowerCase()] *)
Fixpoint toLowerCase (s : string) : string :=
  match s with
  | "" => ""
  | String c s' => String (lowerChar c) (toLowerCase s')
  end.

(** [a.sort()] on an array of strings: ascending by code unit. *)
Definition sort (l : list string) : list string := merge_sort String.le l.

(** [a.sort((x, y) => x.length - y.length)]: ascending by length, and
    stable (entries of one length keep their order), as the language
    standard has required of [sort] since 2019. *)
Fixpoint insertByLength (x : string) (l : list string) : list string :=
  match l with
  | [] => [x]
  | y :: l' =>
      if (String.length x <=? String.length y)%nat then x :: l
      else y :: insertByLength x l'
  end.

Definition sortByLength (l : list string) : list string :=
  foldr insertByLength [] l.

(** [a.filter(p)] for a predicate that carries state between calls (a
    closure over a mutable variable): the state is threaded left to right. *)
Fixpoint filterWith {S A : Type} (p : S → A → bool * S) (st : S) (l : list A) : list A :=
  match l with
  | [] => []
  | v :: l' =>
      let '(keep, st') := p st v in
      if keep then v :: filterWith p st' l' else filterWith p st' l'
  end.

(** [x || d] on strings: the empty string and [undefined] are both falsy. *)
Definition orString (x : option string) (d : string) : string :=
  match x with
  | Some "" | None => d
  | Some s => s
  end.

(** [x || undefined] on a string. *)
Definition orUndefined (s : string) : option string :=
  match s with
  | "" => None
  | _ => Some s
  end.

(** [x || d] on arrays: every array is truthy, only [undefined] is replaced. *)
Definition orArray {A : Type} (x : option (list A)) (d : list A) : list A :=
  match x with
  | Some l => l
  | None => d
  end.

(** What can be thrown: the language's own [TypeError], or an error of the
    host. *)
Inductive Error : Type :=
  | TypeError
  | HostError (msg : string).

(** How a call completes: with a value, or by throwing. *)
Inductive Completion (A : Type) : Type :=
  | Normal (a : A)
  | Throw (e : Error).
Global Arguments Normal {A} a.
Global Arguments Throw {A} e.

(** [a.reduce(f)] with no initial value: a [TypeError] on the empty array. *)
Definition reduce {A : Type} (f : A → A → A) (l : list A) : Completion A :=
  match l with
  | [] => Throw TypeError
  | a :: rest => Normal (foldl f a rest)
  end.

(** [path.join] of Node on a POSIX host, where the separator is "/".

    [normalizeString] of Node's [path] goes through the segments between
    separators and keeps the segments of the result: an empty segment and
    "." are skipped; ".." removes the last segment kept, unless there is
    none or it is ".." itself, and then ".." is kept when the path may rise
    above its root (it is relative) and dropped when it may not. *)
Definition normalizeSegment (allowAboveRoot : bool) (res : list string) (segment : string)
    : list string :=
  if decide (segment = "" ∨ segment = ".") then res
  else if decide (segment = "..") then
    match last res with
    | Some previous =>
        if decide (previous = "..") then (if allowAboveRoot then res ++ [".."] else res)
        else removelast res
    | None => if allowAboveRoot then [".."] else []
    end
  else res ++ [segment].

Definition normalizeString (path : string) (allowAboveRoot : bool) : string :=
  join "/" (foldl (normalizeSegment allowAboveRoot) [] (split "/" path)).

(** [path.charCodeAt(0) === 47] and [path.charCodeAt(path.length - 1) === 47] *)
Definition startsWithSlash (path : string) : bool :=
  match path with
  | String c _ => Ascii.eqb c "/"
  | "" => false
  end.

Fixpoint endsWithSlash (path : string) : bool :=
  match path with
  | "" => false
  | String c "" => Ascii.eqb c "/"
  | String _ rest => endsWithSlash rest
  end.

(** [path.normalize(path)]: an absolute path stays absolute, a trailing
    separator is kept, and the empty result is "." (or "/" when
    absolute). *)
Definition pathNormalize (path : string) : string :=
  match path with
  | "" => "."
  | _ =>
      let isAbsolute := startsWithSlash path in
      let trailingSeparator := endsWithSlash path in
      match normalizeString path (negb isAbsolute) with
      | "" => if isAbsolute then "/" else if trailingSeparator then "./" else "."
      | normalized =>
          let normalized := if trailingSeparator then normalized +:+ "/" else normalized in
          if isAbsolute then "/" +:+ normalized else normalized
      end
  end.

(** [path.join(...paths)]: the non-empty arguments are put together with
    "/" between them and the result is normalized; with no non-empty
    argument the result is ".". *)
Definition pathJoinAll (paths : list string) : string :=
  match filter (λ arg, arg ≠ "") paths with
  | [] => "."
  | joined => pathNormalize (join "/" joined)
  end.

(** [path.join(root, rel)] *)
Definition pathJoin (root rel : string) : string := pathJoinAll [root; rel].

(** What a promise settles to. *)
Inductive Outcome (A : Type) : Type :=
  | Resolved (a : A)
  | Rejected (e : Error).
Global Arguments Resolved {A} a.
Global Arguments Rejected {A} e.

(** A promise, run against the state [W] of the world outside the program:
    when it settles it has an outcome, has left the world in some state, and
    may have started work that nothing awaits ([detached], to run later). *)
Record Settled (W A : Type) : Type := {
  outcome : Outcome A;
  world : W;
  detached : list (W → W);
}.
Global Arguments outcome {W A} _.
Global Arguments world {W A} _.
Global Arguments detached {W A} _.

(** A promise takes the world as it is when it runs. *)
Definition Promise (W A : Type) : Type := W → Settled W A.

(** [Promise.resolve(a)] *)
Definition resolve {W A : Type} (a : A) : Promise W A :=
  λ w, {| outcome := Resolved a; world := w; detached := [] |}.

(** [Promise.reject(e)], also what a [throw] inside a callback amounts to. *)
Definition reject {W A : Type} (e : Error) : Promise W A :=
  λ w, {| outcome := Rejected e; world := w; detached := [] |}.

(** [p.then(f)] where the callback's result is awaited: a rejection of [p]
    skips the callback. *)
Definition andThen {W A B : Type} (p : Promise W A) (f : A → Promise W B) : Promise W B :=
  λ w,
    let r := p w in
    match outcome r with
    | Resolved a =>
        let r' := f a (world r) in
        {| outcome := outcome r';
           world := world r';
           detached := detached r ++ detached r' |}
    | Rejected e =>
        {| outcome := Rejected e; world := world r; detached := detached r |}
    end.

(** [p.then(f)] for a callback that returns a plain value. *)
Definition thenValue {W A B : Type} (p : Promise W A) (f : A → B) : Promise W B :=
  andThen p (λ a, resolve (f a)).

(** The world after a promise and everything it left detached have run. *)
Definition eventually {W A : Type} (p : Promise W A) (w : W) : W :=
  let r := p w in foldl (λ w' task, task w') (world r) (detached r).

(** A promise that is started and then dropped (an expression statement in a
    callback): the caller goes on at once, nothing awaits the promise and
    its outcome is lost. *)
Definition forget {W A : Type} (p : Promise W A) : Promise W unit :=
  λ w, {| outcome := Resolved (); world := w; detached := [eventually p] |}.

(** [a.sort(compare)]: ascending by the comparator, and stable. *)
Fixpoint insertBy {A : Type} (compare : A → A → Z) (x : A) (l : list A) : list A :=
  match l with
  | [] => [x]
  | y :: l' =>
      if (compare x y <=? 0)%Z then x :: l
      else y :: insertBy compare x l'
  end.

Definition sortBy {A : Type} (compare : A → A → Z) (l : list A) : list A :=
  foldr (insertBy compare) [] l.

(** A [Map] keyed by strings: its entries in the order the keys were first
    set. *)
Definition Map (V : Type) : Type := list (string * V).

(** [m.get(k)] *)
Fixpoint mapGet {V : Type} (m : Map V) (k : string) : option V :=
  match m with
  | [] => None
  | (k', v) :: m' => if decide (k' = k) then Some v else mapGet m' k
  end.

(** [m.set(k, v)]: a key already there keeps its place. *)
Fixpoint mapSet {V : Type} (m : Map V) (k : string) (v : V) : Map V :=
  match m with
  | [] => [(k, v)]
  | (k', v') :: m' =>
      if decide (k' = k) then (k, v) :: m' else (k', v') :: mapSet m' k v
  end.

(** [[...m.keys()]] and [[...m.values()]] *)
Definition mapKeys {V : Type} (m : Map V) : list string := fst <$> m.
Definition mapValues {V : Type} (m : Map V) : list V := snd <$> m.

(** [[...m.values()].forEach(v => ...)] for a callback that changes the
    value it is given in place: every value of the map is changed. *)
Definition mapForEach {V : Type} (f : V → V) (m : Map V) : Map V :=
  (λ entry, (fst entry, f (snd entry))) <$> m.

End JS.

(** ** [client/src/util] *)
Module Util.

(** Modelled from the spec: [uniqueFilter] of [client/src/util] is not among
    the sources; the spec has it de-duplicate with the first occurrence
    winning.  It returns a predicate closed over a set of the values seen
    so far: a value passes when it is new, and is then remembered. *)
Definition uniqueFilter (seen : gset string) (v : string) : bool * gset string :=
  (bool_decide (v ∉ seen), {[ v ]} ∪ seen).

(** Modelled from the spec: [unique] of [client/src/util] is not among the
    sources; it de-duplicates, keeping first occurrences in their order
    (the insertion order of a [Set]). *)
Definition unique (values : list string) : list string :=
  JS.filterWith uniqueFilter ∅ values.

End Util.

(** ** [client/src/server] *)
Module Server.

(** Modelled from the spec: [normalizeLocal] of [client/src/server] is not
    among the sources; the spec has it lower-case, trim and canonicalize the
    formatting of a comma-separated locale list, changing white space and
    case only.  The settings code below takes [normalizeLocal] as a
    parameter; this model is what the examples run with. *)
Definition normalizeLocal (local : string) : string :=
  JS.join "," (JS.trim <$> JS.split "," (JS.toLowerCase local)).

End Server.


(** ** Settings values: [CSpellUserSettings] and its keys *)

(** The keys of [CSpellUserSettings] that the settings code reads or writes,
    each with the type of its value. *)
Module Key.
Inductive t : Type → Type :=
  | enabled : t bool
  | enabledLanguageIds : t (list string)
  | userWords : t (list string)
  | words : t (list string)
  | language : t string.
End Key.

(** The values one scope stores; an absent field is [undefined]. *)
Record CSpellUserSettings : Type := {
  enabled : option bool;
  enabledLanguageIds : option (list string);
  userWords : option (list string);
  words : option (list string);
  language : option string;
}.

(** The settings object with every key absent. *)
Definition noSettings : CSpellUserSettings :=
  {| enabled := None; enabledLanguageIds := None; userWords := None;
     words := None; language := None |}.

(** [settings[key]] *)
Definition setting {A : Type} (k : Key.t A) (s : CSpellUserSettings) : option A :=
  match k in Key.t T return option T with
  | Key.enabled => enabled s
  | Key.enabledLanguageIds => enabledLanguageIds s
  | Key.userWords => userWords s
  | Key.words => words s
  | Key.language => language s
  end.

(** [settings] with [key] set to [v], or removed when [v] is [undefined]. *)
Definition withSetting {A : Type} (k : Key.t A) (v : option A) (s : CSpellUserSettings)
    : CSpellUserSettings :=
  match k in Key.t T return option T → CSpellUserSettings with
  | Key.enabled => λ v,
      {| enabled := v; enabledLanguageIds := enabledLanguageIds s;
         userWords := userWords s; words := words s; language := language s |}
  | Key.enabledLanguageIds => λ v,
      {| enabled := enabled s; enabledLanguageIds := v;
         userWords := userWords s; words := words s; language := language s |}
  | Key.userWords => λ v,
      {| enabled := enabled s; enabledLanguageIds := enabledLanguageIds s;
         userWords := v; words := words s; language := language s |}
  | Key.words => λ v,
      {| enabled := enabled s; enabledLanguageIds := enabledLanguageIds s;
         userWords := userWords s; words := v; language := language s |}
  | Key.language => λ v,
      {| enabled := enabled s; enabledLanguageIds := enabledLanguageIds s;
         userWords := userWords s; words := words s; language := v |}
  end v.

(** ** Targets and scopes ([client/src/settings/config]) *)

(** [vscode.ConfigurationTarget], re-exported by config as [Target]. *)
Module Target.
Inductive t : Type := Global | Workspace | WorkspaceFolder.
End Target.

(** The scopes a value can be stored at, broadest first. *)
Module Scope.
Inductive t : Type := Default | User | Workspace | Folder.
End Scope.

(** A resource locator; only its identity matters here. *)
Abbreviation Uri := string (only parsing).

(** Modelled from the spec: [ConfigTarget] of config is not among the
    sources; the spec has it a scope tag with an optional resource.  A bare
    [Target.Workspace] is the tag with no resource. *)
Record ConfigTarget : Type := {
  target : Target.t;
  uri : option Uri;
}.

(** A bare [Target] used as a [ConfigTarget]. *)
Definition bareTarget (t : Target.t) : ConfigTarget :=
  {| target := t; uri := None |}.
Coercion bareTarget : Target.t >-> ConfigTarget.

(** Modelled from the spec: [InspectScope] of config, a scope and the
    resource it is read for. *)
Record InspectScope : Type := {
  scope : Scope.t;
  resource : option Uri;
}.

(** Modelled from the spec: what reading one key across all scopes gives,
    each field exactly what that scope stores. *)
Record Inspect (A : Type) : Type := {
  defaultValue : option A;
  globalValue : option A;
  workspaceValue : option A;
  workspaceFolderValue : option A;
}.
Global Arguments defaultValue {A} _.
Global Arguments globalValue {A} _.
Global Arguments workspaceValue {A} _.
Global Arguments workspaceFolderValue {A} _.

(** Modelled from the spec: the predicates of config over a target. *)
Definition isGlobalTarget (t : ConfigTarget) : bool :=
  match target t with Target.Global => true | _ => false end.

Definition isFolderLevelTarget (t : ConfigTarget) : bool :=
  match target t with Target.WorkspaceFolder => true | _ => false end.

Definition isConfigTargetWithResource (t : ConfigTarget) : bool :=
  match uri t with Some _ => true | None => false end.

(** Modelled from the spec: [configTargetToScope] of config.  A folder
    target with a resource is folder scope; one with no resource behaves as
    workspace scope. *)
Definition configTargetToScope (t : ConfigTarget) : InspectScope :=
  match target t, uri t with
  | Target.Global, r => {| scope := Scope.User; resource := r |}
  | Target.Workspace, r => {| scope := Scope.Workspace; resource := r |}
  | Target.WorkspaceFolder, Some u => {| scope := Scope.Folder; resource := Some u |}
  | Target.WorkspaceFolder, None => {| scope := Scope.Workspace; resource := None |}
  end.

(** ** The world outside the program *)

(** The editor's configuration store: what each scope stores, the folder
    scope per resource. *)
Record VSConfig : Type := {
  defaults : CSpellUserSettings;
  user : CSpellUserSettings;
  workspace : CSpellUserSettings;
  folders : gmap string CSpellUserSettings;
}.

(** [vscode.WorkspaceFolder], of which only [uri.fsPath] is used. *)
Record WorkspaceFolder : Type := {
  fsPath : string;
}.

(** One call of [config.setSettingInVSConfig(section, value, target)]. *)
Inductive Update : Type :=
  | MkUpdate {A : Type} (section : Key.t A) (value : option A) (target : ConfigTarget).

(** One call into the settings-file module [CSpellSettings]. *)
Inductive FileCall : Type :=
  | WriteAddLanguageIdsToSettings (filename : string) (languageIds : list string)
      (createIfNotFound : bool)
  | RemoveLanguageIdsFromSettingsAndUpdate (filename : string) (languageIds : list string).

(** The state the program runs against: the configuration store,
    [workspace.workspaceFolders], the paths [fs.pathExists] finds, and the
    calls made so far to the store's [update] and to [CSpellSettings]. *)
Record Host : Type := {
  vsConfig : VSConfig;
  workspaceFolders : option (list WorkspaceFolder);
  existingFiles : gset string;
  updates : list Update;
  fileCalls : list FileCall;
}.

(** What the program is linked against and the sources do not contain: the
    server's [normalizeLocal], [CSpellSettings.defaultFileName], the editor's
    [workspace.getWorkspaceFolder], and whether the host refuses a given
    store update or settings-file call. *)
Class Collaborators : Type := {
  normalizeLocal : string → string;
  defaultFileName : string;
  getWorkspaceFolder : list WorkspaceFolder → Uri → option WorkspaceFolder;
  updateError : Host → Update → option JS.Error;
  fileCallError : Host → FileCall → option JS.Error;
}.

(** [Thenable<T>]: a promise run against the host. *)
Abbreviation Thenable := (JS.Promise Host).

(** ** Reading and writing settings ([client/src/settings/config]) *)

(** Modelled from the spec: [inspectSettingFromVSConfig] of config, the
    store's [inspect(key, resource)]. *)
Definition inspectSettingFromVSConfig {A : Type} (k : Key.t A) (resource : option Uri)
    (h : Host) : Inspect A :=
  let c := vsConfig h in
  {| defaultValue := setting k (defaults c);
     globalValue := setting k (user c);
     workspaceValue := setting k (workspace c);
     workspaceFolderValue := r ← resource; s ← folders c !! r; setting k s |}.

(** The field of an [Inspect] that a scope names. *)
Definition atScope {A : Type} (ins : Inspect A) (sc : Scope.t) : option A :=
  match sc with
  | Scope.Default => defaultValue ins
  | Scope.User => globalValue ins
  | Scope.Workspace => workspaceValue ins
  | Scope.Folder => workspaceFolderValue ins
  end.

(** Modelled from the spec: [inspectScopedSettingFromVSConfig] of config,
    the value stored exactly at the scope, with no inheritance. *)
Definition inspectScopedSettingFromVSConfig {A : Type} (k : Key.t A) (sc : InspectScope)
    (h : Host) : option A :=
  atScope (inspectSettingFromVSConfig k (resource sc) h) (scope sc).

(** The scopes an effective read at a scope walks, narrowest first. *)
Definition scopesUpTo (sc : Scope.t) : list Scope.t :=
  match sc with
  | Scope.Default => [Scope.Default]
  | Scope.User => [Scope.User; Scope.Default]
  | Scope.Workspace => [Scope.Workspace; Scope.User; Scope.Default]
  | Scope.Folder => [Scope.Folder; Scope.Workspace; Scope.User; Scope.Default]
  end.

(** The first defined value among the given scopes. *)
Fixpoint findBestConfig {A : Type} (ins : Inspect A) (scopes : list Scope.t) : option A :=
  match scopes with
  | [] => None
  | sc :: rest =>
      match atScope ins sc with
      | Some v => Some v
      | None => findBestConfig ins rest
      end
  end.

(** Modelled from the spec: [getScopedSettingFromVSConfig] of config, the
    effective value at the scope: walking from the scope down to the
    default, the first scope with a defined value wins. *)
Definition getScopedSettingFromVSConfig {A : Type} (k : Key.t A) (sc : InspectScope)
    (h : Host) : option A :=
  findBestConfig (inspectSettingFromVSConfig k (resource sc) h) (scopesUpTo (scope sc)).

(** The store after [value] is written for [k] at the scope of [t]. *)
Definition storeUpdate {A : Type} (k : Key.t A) (value : option A) (t : ConfigTarget)
    (c : VSConfig) : VSConfig :=
  let sc := configTargetToScope t in
  match scope sc, resource sc with
  | Scope.Default, _ => c
  | Scope.User, _ =>
      {| defaults := defaults c; user := withSetting k value (user c);
         workspace := workspace c; folders := folders c |}
  | Scope.Workspace, _ | Scope.Folder, None =>
      {| defaults := defaults c; user := user c;
         workspace := withSetting k value (workspace c); folders := folders c |}
  | Scope.Folder, Some r =>
      {| defaults := defaults c; user := user c; workspace := workspace c;
         folders := <[ r := withSetting k value (default noSettings (folders c !! r)) ]>
                      (folders c) |}
  end.

(** The host with one more update recorded and [c] for its store. *)
Definition logUpdate (u : Update) (c : VSConfig) (h : Host) : Host :=
  {| vsConfig := c; workspaceFolders := workspaceFolders h;
     existingFiles := existingFiles h; updates := updates h ++ [u];
     fileCalls := fileCalls h |}.

(** The host with one more settings-file call recorded. *)
Definition logFileCall (f : FileCall) (h : Host) : Host :=
  {| vsConfig := vsConfig h; workspaceFolders := workspaceFolders h;
     existingFiles := existingFiles h; updates := updates h;
     fileCalls := fileCalls h ++ [f] |}.

Section WithCollaborators.
Context `{!Collaborators}.

(** Modelled from the spec: [setSettingInVSConfig] of config, the store's
    [update] at the target's scope.  [undefined] removes the value stored
    there.  A write the host refuses rejects and leaves the store as it
    was. *)
Definition setSettingInVSConfig {A : Type} (k : Key.t A) (value : option A)
    (t : ConfigTarget) : Thenable unit :=
  λ h,
    let call := MkUpdate k value t in
    match updateError h call with
    | Some e =>
        {| JS.outcome := JS.Rejected e;
           JS.world := logUpdate call (vsConfig h) h;
           JS.detached := [] |}
    | None =>
        {| JS.outcome := JS.Resolved ();
           JS.world := logUpdate call (storeUpdate k value t (vsConfig h)) h;
           JS.detached := [] |}
    end.

(** Modelled from the calls the source makes: a call into [CSpellSettings]
    is recorded, and rejects when the host refuses it. *)
Definition callCSpellSettings (f : FileCall) : Thenable unit :=
  λ h,
    {| JS.outcome := match fileCallError h f with
                     | Some e => JS.Rejected e
                     | None => JS.Resolved ()
                     end;
       JS.world := logFileCall f h;
       JS.detached := [] |}.

(** ** [client/src/settings/settings.ts] *)

(** [baseConfigName] and [configFileLocations] (lines 17-23). *)
Definition baseConfigName : string := defaultFileName.

Definition configFileLocations : list string :=
  [ baseConfigName;
    JS.toLowerCase baseConfigName;
    ".vscode/" +:+ baseConfigName;
    ".vscode/" +:+ JS.toLowerCase baseConfigName ].

(** [Uri.file(path)] and [uri.fsPath]: a file's locator is its path. *)
Definition uriFile (path : string) : Uri := path.
Definition uriFsPath (u : Uri) : string := u.

(** [hasWorkspaceLocation] (lines 57-60): [!!(workspaceFolders &&
    workspaceFolders[0])]. *)
Definition hasWorkspaceLocation (h : Host) : bool :=
  match workspaceFolders h with
  | Some (_ :: _) => true
  | _ => false
  end.

(** [findSettingsFiles] (lines 62-86).  The call itself reads the workspace
    folders and builds the candidate paths, and can throw (the [reduce] has
    no initial value); the promise it returns probes the file system. *)
Definition findSettingsFiles (uri : option Uri) (h : Host)
    : JS.Completion (Thenable (list Uri)) :=
  match workspaceFolders h with
  | None => JS.Normal (JS.resolve [])
  | Some wf =>
      if negb (hasWorkspaceLocation h) then JS.Normal (JS.resolve [])
      else
        let folders :=
          match uri with
          | Some u => option_list (getWorkspaceFolder wf u)
          | None => wf
          end in
        match JS.reduce app
                ((λ root, JS.pathJoin root <$> configFileLocations) <$> (fsPath <$> folders))
        with
        | JS.Throw e => JS.Throw e
        | JS.Normal possibleLocations =>
            JS.Normal (λ h',
              JS.resolve
                (uriFile <$> filter (λ filename, filename ∈ existingFiles h') possibleLocations)
                h')
        end
  end.

(** [findExistingSettingsFileLocation] (lines 88-93): the shortest path
    found, [undefined] when none is. *)
Definition findExistingSettingsFileLocation (uri : option Uri) (h : Host)
    : JS.Completion (Thenable (option string)) :=
  match findSettingsFiles uri h with
  | JS.Throw e => JS.Throw e
  | JS.Normal found =>
      JS.Normal
        (JS.thenValue
           (JS.thenValue
              (JS.thenValue found (λ uris, uriFsPath <$> uris))
              JS.sortByLength)
           head)
  end.

(** [setEnableSpellChecking] (lines 111-113). *)
Definition setEnableSpellChecking (target : ConfigTarget) (enabled : bool) : Thenable unit :=
  setSettingInVSConfig Key.enabled (Some enabled) target.

(** [getEnabledLanguagesFromConfig] (lines 115-117). *)
Definition getEnabledLanguagesFromConfig (sc : InspectScope) (h : Host) : list string :=
  JS.orArray (getScopedSettingFromVSConfig Key.enabledLanguageIds sc h) [].

(** [enableLanguageIdInConfig] (lines 119-123). *)
Definition enableLanguageIdInConfig (target : ConfigTarget) (languageId : string)
    : Thenable (list string) :=
  λ h,
    let scope := configTargetToScope target in
    let langs := JS.sort (Util.unique (languageId :: getEnabledLanguagesFromConfig scope h)) in
    JS.thenValue (setSettingInVSConfig Key.enabledLanguageIds (Some langs) target)
      (λ _, langs) h.

(** [disableLanguageIdInConfig] (lines 125-129). *)
Definition disableLanguageIdInConfig (target : ConfigTarget) (languageId : string)
    : Thenable (list string) :=
  λ h,
    let scope := configTargetToScope target in
    let langs :=
      JS.sort (filter (λ a, a ≠ languageId) (getEnabledLanguagesFromConfig scope h)) in
    JS.thenValue (setSettingInVSConfig Key.enabledLanguageIds (Some langs) target)
      (λ _, langs) h.

(** [settingsFilename && f(settingsFilename)]: the call is made for a
    defined, non-empty file name. *)
Definition whenFilename (settingsFilename : option string) (f : string → FileCall)
    : Thenable unit :=
  match settingsFilename with
  | None | Some "" => JS.resolve ()
  | Some name => callCSpellSettings (f name)
  end.

(** [enableLanguage] (lines 136-146).  The callback starts the
    settings-file lookup and write and does not return their promise. *)
Definition enableLanguage (target : ConfigTarget) (languageId : string) : Thenable unit :=
  let updateFile := isFolderLevelTarget target in
  JS.andThen (enableLanguageIdInConfig target languageId) (λ _ h,
    if isConfigTargetWithResource target && updateFile then
      match findExistingSettingsFileLocation (uri target) h with
      | JS.Throw e => JS.reject e h
      | JS.Normal location =>
          JS.forget
            (JS.thenValue
               (JS.andThen location (λ settingsFilename,
                  whenFilename settingsFilename (λ name,
                    WriteAddLanguageIdsToSettings name [languageId] true)))
               (λ _, ()))
            h
      end
    else JS.resolve () h).

(** [disableLanguage] (lines 148-159).  The callback returns the promise
    of the settings-file lookup and update. *)
Definition disableLanguage (target : ConfigTarget) (languageId : string) : Thenable unit :=
  let updateFile := isFolderLevelTarget target in
  JS.andThen (disableLanguageIdInConfig target languageId) (λ _ h,
    if isConfigTargetWithResource target && updateFile then
      match findExistingSettingsFileLocation (uri target) h with
      | JS.Throw e => JS.reject e h
      | JS.Normal location =>
          JS.thenValue
            (JS.andThen location (λ settingsFilename,
               whenFilename settingsFilename (λ name,
                 RemoveLanguageIdsFromSettingsAndUpdate name [languageId])))
            (λ _, ())
            h
      end
    else JS.resolve () h).

(** [addWordToSettings] (lines 161-167). *)
Definition addWordToSettings (target : ConfigTarget) (word : string) : Thenable unit :=
  λ h,
    let useGlobal := isGlobalTarget target || negb (hasWorkspaceLocation h) in
    let target : ConfigTarget := if useGlobal then Target.Global else target in
    let section := if useGlobal then Key.userWords else Key.words in
    let words :=
      JS.orArray (inspectScopedSettingFromVSConfig section (configTargetToScope target) h) [] in
    setSettingInVSConfig section
      (Some (Util.unique (JS.sort (words ++ JS.split " " word)))) target h.

(** For comparison, word addition as the spec words it: the current list
    is read by the inherited (effective) read, the new entries are
    concatenated, and the result is de-duplicated, then sorted. *)
Definition addWordToSettings_asSpecified (target : ConfigTarget) (word : string)
    : Thenable unit :=
  λ h,
    let useGlobal := isGlobalTarget target || negb (hasWorkspaceLocation h) in
    let target : ConfigTarget := if useGlobal then Target.Global else target in
    let section := if useGlobal then Key.userWords else Key.words in
    let words :=
      JS.orArray (getScopedSettingFromVSConfig section (configTargetToScope target) h) [] in
    setSettingInVSConfig section
      (Some (JS.sort (Util.unique (words ++ JS.split " " word)))) target h.

(** [enableLocal] (lines 200-212). *)
Definition enableLocal (target : ConfigTarget) (local : string) : Thenable unit :=
  λ h,
    let scope := configTargetToScope target in
    let currentLanguage :=
      JS.orString (getScopedSettingFromVSConfig Key.language scope h) "" in
    let languages :=
      JS.join ","
        (JS.filterWith Util.uniqueFilter ∅
           (JS.trim <$> (JS.split "," currentLanguage ++ JS.split "," local))) in
    setSettingInVSConfig Key.language (Some languages) target h.

(** [disableLocal] (lines 214-226). *)
Definition disableLocal (target : ConfigTarget) (local : string) : Thenable unit :=
  λ h,
    let scope := configTargetToScope target in
    let local := normalizeLocal local in
    let currentLanguage :=
      JS.orString (inspectScopedSettingFromVSConfig Key.language scope h) "" in
    let languages :=
      JS.orUndefined
        (JS.join ","
           (filter (λ lang, lang ≠ local) (JS.split "," (normalizeLocal currentLanguage)))) in
    setSettingInVSConfig Key.language languages target h.

(** ** The command table of [client/src/extension.ts] *)

(** A registered handler: one written in place in [activate], or one of
    another module, known here by name only. *)
Inductive Handler : Type :=
  | InPlace (run : Thenable unit)
  | Imported (name : string).

(** The [vscode.commands.registerCommand] calls of [activate] (lines
    78-91), in order. *)
Definition registeredCommands : list (string * Handler) :=
  [ ("cSpell.editText", Imported "handlerApplyTextEdits");
    ("cSpell.addWordToDictionarySilent", Imported "commands.addWordToFolderDictionary");
    ("cSpell.addWordToWorkspaceDictionarySilent", Imported "commands.addWordToWorkspaceDictionary");
    ("cSpell.addWordToUserDictionarySilent", Imported "commands.addWordToUserDictionary");
    ("cSpell.addWordToDictionary", Imported "actionAddWordToFolder");
    ("cSpell.addWordToWorkspaceDictionary", Imported "actionAddWordToWorkspace");
    ("cSpell.addWordToUserDictionary", Imported "actionAddWordToDictionary");
    ("cSpell.enableLanguage", Imported "commands.enableLanguageId");
    ("cSpell.disableLanguage", Imported "commands.disableLanguageId");
    ("cSpell.enableForWorkspace", InPlace (setEnableSpellChecking Target.Workspace false));
    ("cSpell.disableForWorkspace", InPlace (setEnableSpellChecking Target.Workspace false));
    ("cSpell.toggleEnableSpellChecker", Imported "commands.toggleEnableSpellChecker");
    ("cSpell.enableCurrentLanguage", Imported "commands.enableCurrentLanguage");
    ("cSpell.disableCurrentLanguage", Imported "commands.disableCurrentLanguage") ].

(** The handler a command id is registered with (the ids are distinct). *)
Definition commandHandler (id : string) : option Handler :=
  (λ entry, snd (snd entry)) <$> list_find (λ entry, fst entry = id) registeredCommands.

End WithCollaborators.

(** ** A concrete world for the examples *)

(** Collaborators that refuse nothing, with the server's [normalizeLocal]
    as the spec describes it and the settings file named as the spec names
    it; a resource belongs to the first workspace folder whose path starts
    its own. *)
Definition obliging : Collaborators :=
  {| normalizeLocal := Server.normalizeLocal;
     defaultFileName := "cspell.json";
     getWorkspaceFolder := λ wf u, head (filter (λ f, String.prefix (fsPath f) u = true) wf);
     updateError := λ _ _, None;
     fileCallError := λ _ _, None |}.

(** A store with nothing set at any scope. *)
Definition emptyStore : VSConfig :=
  {| defaults := noSettings; user := noSettings; workspace := noSettings; folders := ∅ |}.

(** An editor with nothing configured, one open folder and no settings
    file. *)
Definition freshHost : Host :=
  {| vsConfig := emptyStore;
     workspaceFolders := Some [ {| fsPath := "/proj" |} ];
     existingFiles := ∅;
     updates := [];
     fileCalls := [] |}.

(** The same editor with a settings file at the root of the folder and one
    under [.vscode]. *)
Definition projectHost : Host :=
  {| vsConfig := emptyStore;
     workspaceFolders := Some [ {| fsPath := "/proj" |} ];
     existingFiles := {[ "/proj/.vscode/cspell.json"; "/proj/cspell.json" ]};
     updates := [];
     fileCalls := [] |}.

(** An editor with no folder open. *)
Definition rootlessHost : Host :=
  {| vsConfig := emptyStore;
     workspaceFolders := None;
     existingFiles := ∅;
     updates := [];
     fileCalls := [] |}.

(** An editor whose one folder is given with a trailing separator, and has
    a settings file under [.vscode] only. *)
Definition slashHost : Host :=
  {| vsConfig := emptyStore;
     workspaceFolders := Some [ {| fsPath := "/proj/" |} ];
     existingFiles := {[ "/proj/.vscode/cspell.json" ]};
     updates := [];
     fileCalls := [] |}.

(** The folder-level target of a document of the open folder. *)
Definition documentTarget : ConfigTarget :=
  {| target := Target.WorkspaceFolder; uri := Some "/proj/src/main.ts" |}.

(** A document outside every open folder. *)
Definition strayTarget : ConfigTarget :=
  {| target := Target.WorkspaceFolder; uri := Some "/elsewhere/notes.md" |}.



(** The host after the user has set [k] to [v] at the scope of [t]. *)
Definition configured {A : Type} (k : Key.t A) (v : A) (t : ConfigTarget) (h : Host) : Host :=
  {| vsConfig := storeUpdate k (Some v) t (vsConfig h);
     workspaceFolders := workspaceFolders h;
     existingFiles := existingFiles h;
     updates := updates h;
     fileCalls := fileCalls h |}.

(** Unfolds a configuration write with its promise plumbing and splits on
    whether the host took the update. *)
Ltac split_on_update :=
  unfold enableLanguageIdInConfig, disableLanguageIdInConfig, setEnableSpellChecking,
    JS.thenValue, JS.andThen, JS.resolve, setSettingInVSConfig;
  destruct (updateError _ _).

(** No code unit of [s] is [c]. *)
Fixpoint lacks (c : ascii) (s : string) : Prop :=
  match s with
  | "" => True
  | String d s' => d ≠ c ∧ lacks c s'
  end.

(** A file name: not empty, not "." or "..", and without a separator. *)
Definition isFileName (name : string) : Prop :=
  name ≠ "" ∧ name ≠ "." ∧ name ≠ ".." ∧ lacks "/" name.

(** ** The rest of [client/src/settings/settings.ts] *)

(** [!x] on a boolean that may be [undefined]. *)
Definition jsNot (x : option bool) : bool :=
  match x with
  | Some true => false
  | _ => true
  end.

(** [x || y] on strings that may be [undefined]. *)
Definition orElse (x y : option string) : option string :=
  match x with
  | Some "" | None => y
  | Some s => Some s
  end.

(** [SettingsInfo] (lines 27-30). *)
Record SettingsInfo : Type := {
  path : string;
  settings : CSpellUserSettings;
}.

(** What the editor knows of the active text editor: a document with its
    resource and language id. *)
Module VSCode.
Record TextDocument : Type := {
  uri : option Uri;
  languageId : string;
}.
Record TextEditor : Type := {
  document : option TextDocument;
}.
End VSCode.

(** Modelled from the spec: [createTargetForDocument] of config is not among
    the sources; the spec has it return a folder-level target carrying the
    document's resource when the document has one, and the base target
    otherwise. *)
Definition createTargetForDocument (base : Target.t) (doc : VSCode.TextDocument)
    : ConfigTarget :=
  match VSCode.uri doc with
  | Some u => {| target := Target.WorkspaceFolder; uri := Some u |}
  | None => base
  end.

(** Modelled from the spec: [getSettingFromVSConfig] of config is not among
    the sources; it is the store's [get(key, resource)], the effective value
    for the resource in the spec's order of precedence for effective reads
    (folder over workspace over user over default). *)
Definition getSettingFromVSConfig {A : Type} (k : Key.t A) (resource : option Uri) (h : Host)
    : option A :=
  findBestConfig (inspectSettingFromVSConfig k resource h) (scopesUpTo Scope.Folder).

Section RestOfSettings.
Context `{!Collaborators}.

(** [CSpellSettings.readSettings], which the sources do not contain. *)
Variable readSettings : string → Thenable CSpellUserSettings.

(** [getDefaultWorkspaceConfigLocation] (lines 47-55). *)
Definition getDefaultWorkspaceConfigLocation (h : Host) : option string :=
  let root :=
    match workspaceFolders h with
    | Some (folder :: _) => Some (fsPath folder)
    | _ => None
    end in
  match root with
  | None | Some "" => None
  | Some root => Some (JS.pathJoinAll [root; ".vscode"; baseConfigName])
  end.

(** [findSettingsFileLocation] (lines 95-98). *)
Definition findSettingsFileLocation (h : Host) : JS.Completion (Thenable (option string)) :=
  match findExistingSettingsFileLocation None h with
  | JS.Throw e => JS.Throw e
  | JS.Normal existing =>
      JS.Normal (JS.andThen existing (λ path h',
        JS.resolve (orElse path (getDefaultWorkspaceConfigLocation h')) h'))
  end.

(** [loadSettingsFile] (lines 105-109): an undefined or empty path reads
    nothing. *)
Definition loadSettingsFile (path : option string) : Thenable (option SettingsInfo) :=
  match path with
  | None | Some "" => JS.resolve None
  | Some p =>
      JS.thenValue (readSettings p) (λ settings, Some {| path := p; settings := settings |})
  end.

(** [loadTheSettingsFile] (lines 100-103). *)
Definition loadTheSettingsFile (h : Host)
    : JS.Completion (Thenable (option SettingsInfo)) :=
  match findSettingsFileLocation h with
  | JS.Throw e => JS.Throw e
  | JS.Normal location => JS.Normal (JS.andThen location loadSettingsFile)
  end.

(** [toggleEnableSpellChecker] (lines 169-173). *)
Definition toggleEnableSpellChecker (target : ConfigTarget) : Thenable unit :=
  λ h,
    let resource := if isConfigTargetWithResource target then uri target else None in
    let curr := getSettingFromVSConfig Key.enabled resource h in
    setSettingInVSConfig Key.enabled (Some (jsNot curr)) target h.

(** [enableCurrentLanguage] (lines 178-185); the active editor, which the
    source reads from [vscode.window], is an argument here. *)
Definition enableCurrentLanguage (editor : option VSCode.TextEditor) : Thenable unit :=
  match editor with
  | Some {| VSCode.document := Some doc |} =>
      match VSCode.languageId doc with
      | "" => JS.resolve ()
      | languageId =>
          enableLanguage (createTargetForDocument Target.WorkspaceFolder doc) languageId
      end
  | _ => JS.resolve ()
  end.

(** [disableCurrentLanguage] (lines 190-197). *)
Definition disableCurrentLanguage (editor : option VSCode.TextEditor) : Thenable unit :=
  match editor with
  | Some {| VSCode.document := Some doc |} =>
      match VSCode.languageId doc with
      | "" => JS.resolve ()
      | languageId =>
          disableLanguage (createTargetForDocument Target.WorkspaceFolder doc) languageId
      end
  | _ => JS.resolve ()
  end.

(** [overrideLocal] (lines 228-237): [(enable && inspectLang) || undefined]
    is the value read when [enable] holds and the value is a non-empty
    string, and [undefined] otherwise. *)
Definition overrideLocal (enable : bool) (target : ConfigTarget) : Thenable unit :=
  λ h,
    let inspectLang :=
      getScopedSettingFromVSConfig Key.language (configTargetToScope target) h in
    let lang := if enable then orElse inspectLang None else None in
    setSettingInVSConfig Key.language lang target h.

End RestOfSettings.

(** ** [client/src/infoViewer/cSpellInfo.ts] *)
Module InfoViewer.

(** An entry of the language-code table ([iso639-1], not among the
    sources): a language name and a country name. *)
Record LangCountry : Type := {
  lang : string;
  country : string;
}.

(** [LocalInfo] of [pugCSpellInfo], with the fields this file reads and
    writes; the flags may be absent. *)
Record LocalInfo : Type := {
  code : string;
  name : string;
  dictionaries : list string;
  enabled : option bool;
  isInUserSettings : option bool;
  isInWorkspaceSettings : option bool;
  isInFolderSettings : option bool;
}.

(** [PartialLocalInfo] (lines 235-237): every field optional. *)
Record PartialLocalInfo : Type := {
  code' : option string;
  name' : option string;
  dictionaries' : option (list string);
  enabled' : option bool;
  isInUserSettings' : option bool;
  isInWorkspaceSettings' : option bool;
  isInFolderSettings' : option bool;
}.

(** The empty object [{}]. *)
Definition noDefaults : PartialLocalInfo :=
  {| code' := None; name' := None; dictionaries' := None; enabled' := None;
     isInUserSettings' := None; isInWorkspaceSettings' := None;
     isInFolderSettings' := None |}.

Section WithTable.
Context `{!Collaborators}.

(** [langCode.lookupCode], the table of which is not among the sources. *)
Variable lookupCode : string → option LangCountry.

(** [lookupCode(code) || { lang: code, country: '' }] followed by
    [country ? `${lang} - ${country}` : lang] (lines 228-229, 246-247). *)
Definition displayName (code : string) : string :=
  let entry := default {| lang := code; country := "" |} (lookupCode code) in
  match country entry with
  | "" => lang entry
  | c => lang entry +:+ " - " +:+ c
  end.

(** [friendlyLocals] (lines 225-233); [!!a.trim()] holds of the strings
    that trim to a non-empty one. *)
Definition friendlyLocals (locals : option (list string)) : list string :=
  JS.sort
    (JS.filterWith Util.uniqueFilter ∅
       (JS.trim <$>
          (displayName <$> filter (λ a, JS.trim a ≠ "") (JS.orArray locals [])))).

(** [localInfo] (lines 239-250): in [{dictionaries: [], ...defaults,
    ...info, name}] the code and the name win over the defaults. *)
Definition localInfo (locals : option (list string)) (defaults : PartialLocalInfo)
    : list LocalInfo :=
  (λ code,
     {| code := code;
        name := displayName code;
        dictionaries := default [] (dictionaries' defaults);
        enabled := enabled' defaults;
        isInUserSettings := isInUserSettings' defaults;
        isInWorkspaceSettings := isInWorkspaceSettings' defaults;
        isInFolderSettings := isInFolderSettings' defaults |})
  <$> JS.sort (JS.filterWith Util.uniqueFilter ∅
                 (filter (λ a, JS.trim a ≠ "") (JS.orArray locals []))).

(** The argument of [toTarget]: a boolean or a scope name. *)
Inductive TargetArg : Type :=
  | IsGlobal (b : bool)
  | ScopeName (s : string).

(** [toTarget] (lines 330-351); the uri of the document shown, which the
    source gets from [determineDocUri], is an argument here. *)
Definition toTarget (arg : TargetArg) (docUri : option Uri) : ConfigTarget :=
  match arg with
  | IsGlobal b => if b then Target.Global else Target.Workspace
  | ScopeName s =>
      let s := JS.toLowerCase s in
      if decide (s = "folder") then
        match docUri with
        | Some u => {| target := Target.WorkspaceFolder; uri := Some u |}
        | None => Target.Workspace
        end
      else if decide (s = "workspace") then Target.Workspace
      else Target.Global
  end.

(** The server's settings, and what [composeLocalInfo] reads from them
    through [extractDictionariesByLocal] (a map from locale code to
    dictionary names), [extractLocals] and [extractLanguage]; with
    [normalizeToLocals] they belong to the server module, which is not among
    the sources. *)
Variable ServerSettings : Type.
Variable extractDictionariesByLocal : option ServerSettings → string → option (list string).
Variable extractLocals : option ServerSettings → option (list string).
Variable extractLanguage : option ServerSettings → option (list string).
Variable normalizeToLocals : option string → option (list string).

(** [a.localeCompare(b)], which depends on the host's locale. *)
Variable localeCompare : string → string → Z.

(** The body of [resetKnownLocals] (lines 276-284): the four flags are
    deleted. *)
Definition resetKnownLocal (info : LocalInfo) : LocalInfo :=
  {| code := code info; name := name info; dictionaries := dictionaries info;
     enabled := None; isInUserSettings := None; isInWorkspaceSettings := None;
     isInFolderSettings := None |}.

(** [{...old, ...info}] (line 294) for an [info] built by [localInfo]: it
    has [dictionaries], [code] and [name] of its own, and the flags its
    defaults had; what it lacks is taken from [old]. *)
Definition spread (old : option LocalInfo) (info : LocalInfo) : LocalInfo :=
  let inherited (flag : LocalInfo → option bool) :=
    match flag info with
    | Some b => Some b
    | None => old ≫= flag
    end in
  {| code := code info; name := name info; dictionaries := dictionaries info;
     enabled := inherited enabled;
     isInUserSettings := inherited isInUserSettings;
     isInWorkspaceSettings := inherited isInWorkspaceSettings;
     isInFolderSettings := inherited isInFolderSettings |}.

(** [knownLocals.set(info.code, {...knownLocals.get(info.code), ...info})] *)
Definition remember (knownLocals : JS.Map LocalInfo) (info : LocalInfo) : JS.Map LocalInfo :=
  JS.mapSet knownLocals (code info) (spread (JS.mapGet knownLocals (code info)) info).

(** [info.isInWorkspaceSettings = info.isInWorkspaceSettings || false] and
    the same for the folder flag (lines 296-304). *)
Definition forceWorkspaceFlag (info : LocalInfo) : LocalInfo :=
  {| code := code info; name := name info; dictionaries := dictionaries info;
     enabled := enabled info; isInUserSettings := isInUserSettings info;
     isInWorkspaceSettings := Some (default false (isInWorkspaceSettings info));
     isInFolderSettings := isInFolderSettings info |}.

Definition forceFolderFlag (info : LocalInfo) : LocalInfo :=
  {| code := code info; name := name info; dictionaries := dictionaries info;
     enabled := enabled info; isInUserSettings := isInUserSettings info;
     isInWorkspaceSettings := isInWorkspaceSettings info;
     isInFolderSettings := Some (default false (isInFolderSettings info)) |}.

(** The body of the loop of [augmentLocals] (lines 311-317). *)
Definition augmentLocal (dictByLocal : string → option (list string)) (local : LocalInfo)
    : LocalInfo :=
  {| code := code local; name := name local;
     dictionaries := JS.sort (JS.orArray (dictByLocal (code local)) []);
     enabled := enabled local; isInUserSettings := isInUserSettings local;
     isInWorkspaceSettings := isInWorkspaceSettings local;
     isInFolderSettings := isInFolderSettings local |}.

(** [composeLocalInfo] (lines 267-309) with [augmentLocals] (lines
    311-317).  [knownLocals] is a variable of the enclosing [activate] that
    lives from one call to the next: it is taken and given back here, with
    the array returned.  The uri of the document shown, which the source
    gets from [determineDocUri], is an argument.  The array returned holds
    the very objects that are the map's values, so the dictionaries
    [augmentLocals] sets on them are the map's too. *)
Definition composeLocalInfo (settingsFromServer : option ServerSettings)
    (docUri : option Uri) (h : Host) (knownLocals : JS.Map LocalInfo)
    : list LocalInfo * JS.Map LocalInfo :=
  let dictByLocal := extractDictionariesByLocal settingsFromServer in
  let availableLocals := localInfo (extractLocals settingsFromServer) noDefaults in
  let localsFromServer :=
    localInfo (extractLanguage settingsFromServer)
      {| code' := None; name' := None; dictionaries' := None; enabled' := Some true;
         isInUserSettings' := None; isInWorkspaceSettings' := None;
         isInFolderSettings' := None |} in
  let fromConfig := inspectSettingFromVSConfig Key.language docUri h in
  let globalLocals :=
    localInfo (normalizeToLocals (globalValue fromConfig))
      {| code' := None; name' := None; dictionaries' := None; enabled' := None;
         isInUserSettings' := Some true; isInWorkspaceSettings' := None;
         isInFolderSettings' := None |} in
  let workspaceLocals :=
    localInfo (normalizeToLocals (workspaceValue fromConfig))
      {| code' := None; name' := None; dictionaries' := None; enabled' := None;
         isInUserSettings' := None; isInWorkspaceSettings' := Some true;
         isInFolderSettings' := None |} in
  let folderLocals :=
    localInfo (normalizeToLocals (workspaceFolderValue fromConfig))
      {| code' := None; name' := None; dictionaries' := None; enabled' := None;
         isInUserSettings' := None; isInWorkspaceSettings' := None;
         isInFolderSettings' := Some true |} in
  let known := JS.mapForEach resetKnownLocal knownLocals in
  let known :=
    foldl remember known
      (availableLocals ++ localsFromServer ++ globalLocals ++ workspaceLocals
         ++ folderLocals) in
  let known :=
    match workspaceLocals with
    | [] => known
    | _ :: _ => JS.mapForEach forceWorkspaceFlag known
    end in
  let known :=
    match folderLocals with
    | [] => known
    | _ :: _ => JS.mapForEach forceFolderFlag known
    end in
  let locals :=
    JS.sortBy (λ a b, localeCompare (name a) (name b)) (JS.mapValues known) in
  (augmentLocal dictByLocal <$> locals, JS.mapForEach (augmentLocal dictByLocal) known).

End WithTable.

End InfoViewer.

(** ** A concrete viewer for the examples *)

(** No table of language codes: every code is its own name. *)
Definition plainNames : string → option InfoViewer.LangCountry := λ _, None.

(** A server that offers "en" and "de", has "en" in use, and has two
    dictionaries for "en". *)
Definition offeredLocals : option unit → option (list string) := λ _, Some ["en"; "de"].
Definition languageInUse : option unit → option (list string) := λ _, Some ["en"].
Definition offeredDictionaries : option unit → string → option (list string) :=
  λ _ c, if decide (c = "en") then Some ["wordsEn"; "companies"] else None.

(** The comma-separated codes of a [language] value. *)
Definition codesOf (language : option string) : option (list string) :=
  JS.split "," <$> language.

(** A comparison that finds every two names equal. *)
Definition sameName : string → string → Z := λ _ _, 0%Z.

(** What an earlier composition left behind: "fr", then enabled and in the
    user settings. *)
Definition staleLocals : JS.Map InfoViewer.LocalInfo :=
  [ ("fr", {| InfoViewer.code := "fr"; InfoViewer.name := "fr";
              InfoViewer.dictionaries := ["wordsFr"];
              InfoViewer.enabled := Some true;
              InfoViewer.isInUserSettings := Some true;
              InfoViewer.isInWorkspaceSettings := None;
              InfoViewer.isInFolderSettings := None |}) ].

(** * Properties *)

(** ** Splitting and joining *)

Lemma split_not_nil sep s : JS.split sep s ≠ [].
Proof.
  destruct s as [|c s]; simpl; [done|].
  destruct (Ascii.eqb c sep); [done|].
  by destruct (JS.split sep s).
Qed.

Lemma split_lacks sep s : Forall (lacks sep) (JS.split sep s).
Proof.
  induction s as [|c s IH]; simpl.
  - by repeat constructor.
  - destruct (Ascii.eqb_spec c sep) as [->|Hne].
    + by constructor.
    + destruct (JS.split sep s) as [|w ws]; [by repeat constructor|].
      inversion IH; subst. by repeat constructor.
Qed.

Lemma join_cons sep x y l :
  JS.join sep (x :: y :: l) = x +:+ sep +:+ JS.join sep (y :: l).
Proof. done. Qed.

Lemma join_split sep s : JS.join (String sep "") (JS.split sep s) = s.
Proof.
  induction s as [|c s IH]; [done|]. cbn [JS.split].
  pose proof (split_not_nil sep s) as Hnil.
  destruct (Ascii.eqb_spec c sep) as [->|Hne].
  - destruct (JS.split sep s) as [|w ws]; [done|].
    rewrite join_cons, IH. done.
  - destruct (JS.split sep s) as [|w ws]; [done|].
    destruct ws as [|w' ws].
    + simpl in *. by rewrite IH.
    + rewrite join_cons in *. by rewrite <- IH.
Qed.

Lemma split_lacks_id sep w : lacks sep w → JS.split sep w = [w].
Proof.
  induction w as [|c w IH]; [done|]. intros [Hne Hw]. cbn [JS.split].
  destruct (Ascii.eqb_spec c sep); [done|]. by rewrite IH.
Qed.

Lemma split_app_sep sep w s :
  lacks sep w → JS.split sep (w +:+ String sep s) = w :: JS.split sep s.
Proof.
  induction w as [|c w IH]; intros Hw.
  - change (JS.split sep (String sep s) = "" :: JS.split sep s).
    cbn [JS.split]. by rewrite Ascii.eqb_refl.
  - destruct Hw as [Hne Hw].
    change (JS.split sep (String c (w +:+ String sep s)) = String c w :: JS.split sep s).
    cbn [JS.split].
    destruct (Ascii.eqb_spec c sep); [done|]. by rewrite (IH Hw).
Qed.

Lemma split_join sep l :
  l ≠ [] → Forall (lacks sep) l → JS.split sep (JS.join (String sep "") l) = l.
Proof.
  induction l as [|x l IH]; [done|]. intros _ Hl.
  inversion Hl as [|? ? Hx Hl']; subst.
  destruct l as [|y l].
  - simpl. by apply split_lacks_id.
  - rewrite join_cons.
    change (String sep "" +:+ ?t) with (String sep t).
    rewrite split_app_sep by done. by rewrite IH.
Qed.

(** ** Trimming *)

Lemma trimEnd_idemp s : JS.trimEnd (JS.trimEnd s) = JS.trimEnd s.
Proof.
  induction s as [|c s IH]; [done|]. cbn [JS.trimEnd].
  destruct (JS.trimEnd s) as [|d t] eqn:Ht.
  - destruct (JS.isWhiteSpace c) eqn:Hc; [done|]. cbn. by rewrite Hc.
  - cbn [JS.trimEnd]. cbn [JS.trimEnd] in IH. by rewrite IH.
Qed.

Lemma trimStart_head s :
  match JS.trimStart s with
  | "" => True
  | String c _ => JS.isWhiteSpace c = false
  end.
Proof.
  induction s as [|c s IH]; [done|]. cbn [JS.trimStart].
  by destruct (JS.isWhiteSpace c) eqn:Hc.
Qed.

Lemma trimStart_trimEnd_clean c s :
  JS.isWhiteSpace c = false →
  JS.trimStart (JS.trimEnd (String c s)) = JS.trimEnd (String c s).
Proof.
  intros Hc. cbn [JS.trimEnd].
  destruct (JS.trimEnd s); rewrite ?Hc; cbn [JS.trimStart]; by rewrite Hc.
Qed.

Lemma trim_idemp s : JS.trim (JS.trim s) = JS.trim s.
Proof.
  unfold JS.trim. pose proof (trimStart_head s) as Hs.
  destruct (JS.trimStart s) as [|c t]; [done|].
  rewrite trimStart_trimEnd_clean by done. apply trimEnd_idemp.
Qed.

Lemma trimStart_lacks c s : lacks c s → lacks c (JS.trimStart s).
Proof.
  induction s as [|d s IH]; [done|]. intros [Hd Hs]. cbn [JS.trimStart].
  destruct (JS.isWhiteSpace d); [by apply IH | done].
Qed.

Lemma trimEnd_lacks c s : lacks c s → lacks c (JS.trimEnd s).
Proof.
  induction s as [|d s IH]; [done|]. intros [Hd Hs]. cbn [JS.trimEnd].
  specialize (IH Hs). destruct (JS.trimEnd s).
  - by destruct (JS.isWhiteSpace d).
  - done.
Qed.

Lemma trim_lacks c s : lacks c s → lacks c (JS.trim s).
Proof. intros. by apply trimEnd_lacks, trimStart_lacks. Qed.

(** ** De-duplication *)

Lemma uniqueFilter_elem_of seen l x :
  x ∈ JS.filterWith Util.uniqueFilter seen l ↔ x ∈ l ∧ x ∉ seen.
Proof.
  revert seen. induction l as [|v l IH]; intros seen; cbn.
  - set_solver.
  - case_bool_decide as Hv.
    + rewrite elem_of_cons, IH, elem_of_cons.
      destruct (decide (x = v)) as [->|]; set_solver.
    + rewrite IH, elem_of_cons. set_solver.
Qed.

Lemma uniqueFilter_NoDup seen l : NoDup (JS.filterWith Util.uniqueFilter seen l).
Proof.
  revert seen. induction l as [|v l IH]; intros seen; cbn.
  - constructor.
  - case_bool_decide; [|done]. constructor; [|done].
    rewrite uniqueFilter_elem_of. set_solver.
Qed.

(** A list with no repetition and nothing seen yet passes whole. *)
Lemma uniqueFilter_fresh seen l :
  NoDup l → (∀ x, x ∈ l → x ∉ seen) → JS.filterWith Util.uniqueFilter seen l = l.
Proof.
  revert seen. induction l as [|v l IH]; intros seen Hnd Hseen; cbn; [done|].
  inversion Hnd; subst.
  rewrite bool_decide_true by (apply Hseen; left).
  f_equal. apply IH; [done|]. intros x Hx. specialize (Hseen x). set_solver.
Qed.

(** Values seen before are all dropped. *)
Lemma uniqueFilter_stale seen l :
  (∀ x, x ∈ l → x ∈ seen) → JS.filterWith Util.uniqueFilter seen l = [].
Proof.
  revert seen. induction l as [|v l IH]; intros seen Hseen; cbn; [done|].
  rewrite bool_decide_false by (specialize (Hseen v); set_solver).
  apply IH. intros x Hx. specialize (Hseen x). set_solver.
Qed.

Lemma uniqueFilter_app seen l1 l2 :
  JS.filterWith Util.uniqueFilter seen (l1 ++ l2) =
  (JS.filterWith Util.uniqueFilter seen l1 ++
   JS.filterWith Util.uniqueFilter (list_to_set l1 ∪ seen) l2).
Proof.
  revert seen. induction l1 as [|v l1 IH]; intros seen; cbn.
  - f_equal. set_solver.
  - assert (list_to_set l1 ∪ ({[v]} ∪ seen) = {[v]} ∪ list_to_set l1 ∪ seen) as Heq
      by set_solver.
    case_bool_decide; cbn; rewrite IH, Heq; done.
Qed.

Lemma uniqueFilter_not_nil v l : JS.filterWith Util.uniqueFilter ∅ (v :: l) ≠ [].
Proof. cbn. by rewrite bool_decide_true by set_solver. Qed.

(** Filtering a second time, with what came out put in front of more of
    the same values, gives back what came out. *)
Lemma uniqueFilter_absorb l extra :
  let out := JS.filterWith Util.uniqueFilter ∅ l in
  (∀ x, x ∈ extra → x ∈ l) →
  JS.filterWith Util.uniqueFilter ∅ (out ++ extra) = out.
Proof.
  intros out Hextra. rewrite uniqueFilter_app.
  rewrite uniqueFilter_fresh; [|apply uniqueFilter_NoDup|set_solver].
  rewrite uniqueFilter_stale; [by rewrite app_nil_r|].
  intros x Hx. apply elem_of_union_l, elem_of_list_to_set.
  apply uniqueFilter_elem_of. split; [by apply Hextra | set_solver].
Qed.

(** ** Sorting *)

Lemma sort_elem_of l x : x ∈ JS.sort l ↔ x ∈ l.
Proof. unfold JS.sort. by rewrite merge_sort_Permutation. Qed.

Lemma sort_sorted l : StronglySorted String.le (JS.sort l).
Proof. apply StronglySorted_merge_sort; apply _. Qed.

Lemma sort_NoDup l : NoDup l → NoDup (JS.sort l).
Proof. unfold JS.sort. by rewrite merge_sort_Permutation. Qed.

Lemma unique_elem_of l x : x ∈ Util.unique l ↔ x ∈ l.
Proof. unfold Util.unique. rewrite uniqueFilter_elem_of. set_solver. Qed.

Lemma unique_NoDup l : NoDup (Util.unique l).
Proof. apply uniqueFilter_NoDup. Qed.

Lemma uniqueFilter_sorted seen l :
  StronglySorted String.le l →
  StronglySorted String.le (JS.filterWith Util.uniqueFilter seen l).
Proof.
  revert seen. induction l as [|v l IH]; intros seen Hl; cbn; [constructor|].
  apply StronglySorted_cons in Hl as [Hv Hl].
  case_bool_decide; [|by apply IH].
  apply StronglySorted_cons. split; [|by apply IH].
  rewrite Forall_forall in Hv |- *.
  intros x Hx. apply Hv. by apply uniqueFilter_elem_of in Hx as [Hx _].
Qed.

Lemma unique_sorted l : StronglySorted String.le l → StronglySorted String.le (Util.unique l).
Proof. apply uniqueFilter_sorted. Qed.

(** ** The configuration store *)

Lemma setting_withSetting {A} (k : Key.t A) v s : setting k (withSetting k v s) = v.
Proof. by destruct k. Qed.

Lemma withSetting_twice {A} (k : Key.t A) v v' s :
  withSetting k v (withSetting k v' s) = withSetting k v s.
Proof. by destruct k. Qed.

(** What a read finds depends on the store alone. *)
Lemma getScoped_store {A} (k : Key.t A) sc h h' :
  vsConfig h = vsConfig h' →
  getScopedSettingFromVSConfig k sc h = getScopedSettingFromVSConfig k sc h'.
Proof.
  intros Heq. unfold getScopedSettingFromVSConfig, inspectSettingFromVSConfig.
  by rewrite Heq.
Qed.

(** After a write, the scope written stores exactly the value written. *)
Lemma inspectScoped_storeUpdate {A} (k : Key.t A) v t h h' :
  vsConfig h' = storeUpdate k v t (vsConfig h) →
  inspectScopedSettingFromVSConfig k (configTargetToScope t) h' = v.
Proof.
  intros Heq. unfold inspectScopedSettingFromVSConfig, inspectSettingFromVSConfig.
  rewrite Heq. unfold storeUpdate.
  destruct t as [[] [u|]]; cbn; rewrite ?lookup_insert_eq; cbn;
    apply setting_withSetting.
Qed.

(** After a defined value is written, the effective value at the scope
    written is that value. *)
Lemma getScoped_storeUpdate {A} (k : Key.t A) (v : A) t h h' :
  vsConfig h' = storeUpdate k (Some v) t (vsConfig h) →
  getScopedSettingFromVSConfig k (configTargetToScope t) h' = Some v.
Proof.
  intros Heq.
  pose proof (inspectScoped_storeUpdate k (Some v) t h h' Heq) as Hins.
  unfold getScopedSettingFromVSConfig.
  unfold inspectScopedSettingFromVSConfig in Hins.
  destruct (scope (configTargetToScope t)); cbn in *; by rewrite Hins.
Qed.

Lemma storeUpdate_twice {A} (k : Key.t A) v v' t c :
  storeUpdate k v t (storeUpdate k v' t c) = storeUpdate k v t c.
Proof.
  unfold storeUpdate.
  destruct t as [[] [u|]]; cbn; rewrite ?withSetting_twice; try done.
  rewrite lookup_insert_eq, insert_insert_eq. cbn. by rewrite withSetting_twice.
Qed.

Lemma orString_Some s : JS.orString (Some s) "" = s.
Proof. by destruct s. Qed.

Section Writes.
Context `{!Collaborators}.

Lemma setSetting_updates {A} (k : Key.t A) v t h :
  updates (JS.world (setSettingInVSConfig k v t h)) = updates h ++ [MkUpdate k v t].
Proof. by split_on_update. Qed.

Lemma setSetting_resolved {A} (k : Key.t A) v t h :
  JS.outcome (setSettingInVSConfig k v t h) = JS.Resolved () →
  vsConfig (JS.world (setSettingInVSConfig k v t h)) = storeUpdate k v t (vsConfig h).
Proof. by split_on_update. Qed.

Lemma setSetting_rejected {A} (k : Key.t A) v t h :
  JS.outcome (setSettingInVSConfig k v t h) ≠ JS.Resolved () →
  vsConfig (JS.world (setSettingInVSConfig k v t h)) = vsConfig h.
Proof. by split_on_update. Qed.

End Writes.

(** ** Enabling a locale *)

(** The entries [enableLocal] joins: there is at least one, none is
    repeated, none holds a comma, and trimming changes none. *)
Lemma enabled_entries_shape current local :
  let entries :=
    JS.filterWith Util.uniqueFilter ∅
      (JS.trim <$> (JS.split "," current ++ JS.split "," local)) in
  entries ≠ []
  ∧ NoDup entries
  ∧ Forall (lacks ",") entries
  ∧ Forall (λ code, JS.trim code = code) entries.
Proof.
  intros entries.
  assert (∀ x, x ∈ entries →
            ∃ y, x = JS.trim y ∧ y ∈ JS.split "," current ++ JS.split "," local) as Hsub.
  { intros x Hx. apply uniqueFilter_elem_of in Hx as [Hx _].
    by apply list_elem_of_fmap in Hx. }
  split_and!.
  - subst entries. pose proof (split_not_nil "," current).
    destruct (JS.split "," current) as [|w ws]; [done|].
    rewrite <- app_comm_cons, fmap_cons. apply uniqueFilter_not_nil.
  - apply uniqueFilter_NoDup.
  - rewrite Forall_forall. intros x (y & -> & Hy)%Hsub. apply trim_lacks.
    apply elem_of_app in Hy as [Hy|Hy];
      [pose proof (split_lacks "," current) as Hall
      |pose proof (split_lacks "," local) as Hall];
      rewrite Forall_forall in Hall; by apply Hall.
  - rewrite Forall_forall. intros x (y & -> & _)%Hsub. apply trim_idemp.
Qed.

(** Run again on its own result and the same argument, the pipeline of
    [enableLocal] gives the same entries. *)
Lemma enabled_entries_fixed current local :
  let entries :=
    JS.filterWith Util.uniqueFilter ∅
      (JS.trim <$> (JS.split "," current ++ JS.split "," local)) in
  JS.filterWith Util.uniqueFilter ∅
    (JS.trim <$> (JS.split "," (JS.join "," entries) ++ JS.split "," local))
  = entries.
Proof.
  intros entries.
  destruct (enabled_entries_shape current local) as (Hnil & _ & Hlacks & Htrim).
  fold entries in Hnil, Hlacks, Htrim.
  apply Forall_fmap_ext in Htrim. rewrite list_fmap_id in Htrim.
  rewrite split_join by done. rewrite fmap_app, Htrim.
  apply (uniqueFilter_absorb (JS.trim <$> (JS.split "," current ++ JS.split "," local))).
  intros x Hx. rewrite fmap_app. set_solver.
Qed.

Section EnableLocal.
Context `{!Collaborators}.

(** [enableLocal] is idempotent: called a second time with the same target
    and locale string it issues a second update that carries the same
    [language] value as the first; when the store took the first update,
    the second leaves the store as it was, and the value read back is the
    one first written.  With "en" already the effective value, enabling
    "en" twice reads back "en".  Both calls are recorded: a write still
    occurs. *)
Theorem enableLocal_twice_same_value (target : ConfigTarget) (local : string) (h : Host) :
  let first := enableLocal target local h in
  let second := enableLocal target local (JS.world first) in
  let readBack := getScopedSettingFromVSConfig Key.language (configTargetToScope target) in
  ∃ v : string,
    updates (JS.world first) = updates h ++ [MkUpdate Key.language (Some v) target]
    ∧ updates (JS.world second)
      = updates h ++ [MkUpdate Key.language (Some v) target;
                      MkUpdate Key.language (Some v) target]
    ∧ (JS.outcome first = JS.Resolved () →
       readBack (JS.world first) = Some v
       ∧ (JS.outcome second = JS.Resolved () →
          vsConfig (JS.world second) = vsConfig (JS.world first)
          ∧ readBack (JS.world second) = Some v))
    ∧ (readBack h = Some "en" → local = "en" → v = "en").
Proof.
  intros first second readBack.
  set (value := λ h0 : Host,
    JS.join ","
      (JS.filterWith Util.uniqueFilter ∅
         (JS.trim <$> (JS.split "," (JS.orString (readBack h0) "") ++ JS.split "," local)))).
  assert (first = setSettingInVSConfig Key.language (Some (value h)) target h)
    as Hfirst by done.
  assert (second = setSettingInVSConfig Key.language (Some (value (JS.world first)))
                     target (JS.world first)) as Hsecond by done.
  assert (JS.outcome first = JS.Resolved () → readBack (JS.world first) = Some (value h))
    as Hread.
  { intros Hok. apply (getScoped_storeUpdate Key.language (value h) target h).
    rewrite Hfirst in Hok |- *. by apply setSetting_resolved. }
  assert (value (JS.world first) = value h) as Hsame.
  { destruct (JS.outcome first) as [[]|e] eqn:Hout.
    - unfold value at 1. rewrite Hread by done. rewrite orString_Some.
      unfold value. f_equal. apply enabled_entries_fixed.
    - unfold value, readBack.
      rewrite (getScoped_store Key.language _ (JS.world first) h); [done|].
      rewrite Hfirst. apply setSetting_rejected. rewrite <- Hfirst, Hout. done. }
  rewrite Hsame in Hsecond.
  exists (value h). split_and!.
  - rewrite Hfirst. apply setSetting_updates.
  - rewrite Hsecond, setSetting_updates. rewrite Hfirst, setSetting_updates.
    by rewrite <- app_assoc.
  - intros Hok. split; [by apply Hread|]. intros Hok2.
    assert (vsConfig (JS.world second) = vsConfig (JS.world first)) as Hstore.
    { rewrite Hsecond in Hok2 |- *. rewrite setSetting_resolved by done.
      rewrite Hfirst in Hok |- *. rewrite setSetting_resolved by done.
      apply storeUpdate_twice. }
    split; [done|]. unfold readBack.
    rewrite (getScoped_store Key.language _ _ _ Hstore). by apply Hread.
  - intros Hen ->. unfold value. rewrite Hen. by vm_compute.
Qed.

(** What [enableLocal] joins is trimmed and free of repetitions, it splits
    back into the same entries, and its first entry is the trimmed first
    entry of the value read: the empty string when that value is unset or
    empty. *)
Lemma enableLocal_entries (target : ConfigTarget) (local : string) (h : Host) :
  let current :=
    JS.orString
      (getScopedSettingFromVSConfig Key.language (configTargetToScope target) h) "" in
  ∃ entries : list string,
    enableLocal target local h
    = setSettingInVSConfig Key.language (Some (JS.join "," entries)) target h
    ∧ NoDup entries
    ∧ Forall (λ code, JS.trim code = code) entries
    ∧ JS.split "," (JS.join "," entries) = entries
    ∧ head entries = JS.trim <$> head (JS.split "," current)
    ∧ (current = "" → head entries = Some "").
Proof.
  intros current.
  destruct (enabled_entries_shape current local) as (Hnil & Hnd & Hlacks & Htrim).
  exists (JS.filterWith Util.uniqueFilter ∅
            (JS.trim <$> (JS.split "," current ++ JS.split "," local))).
  split_and!; [done | exact Hnd | exact Htrim | by apply split_join | |].
  - pose proof (split_not_nil "," current).
    destruct (JS.split "," current) as [|w ws]; [done|].
    rewrite <- app_comm_cons, fmap_cons. cbn.
    by rewrite bool_decide_true by set_solver.
  - intros ->. cbn. by rewrite bool_decide_true by set_solver.
Qed.

End EnableLocal.

(** C1. With [language] unset at every scope, or set to the empty string,
    [enableLocal(Global, "en")] writes ",en": the entries of the value
    written are the empty string and "en".  With "en" stored, enabling "EN"
    writes "en,EN": the codes are compared and kept in the case they were
    given. *)
Theorem enableLocal_unset_writes_empty_entry :
  updates (JS.world (@enableLocal obliging Target.Global "en" freshHost))
  = [MkUpdate Key.language (Some ",en") Target.Global]
  ∧ updates (JS.world (@enableLocal obliging Target.Global "en"
               (configured Key.language "" Target.Global freshHost)))
    = [MkUpdate Key.language (Some ",en") Target.Global]
  ∧ JS.split "," ",en" = [""; "en"]
  ∧ updates (JS.world (@enableLocal obliging Target.Global "EN"
               (configured Key.language "en" Target.Global freshHost)))
    = [MkUpdate Key.language (Some "en,EN") Target.Global].
Proof. split_and!; by vm_compute. Qed.

(** C3. Where [language] is unset at every scope, or set to the empty
    string, [enableLocal(Global, "en")] followed by a second
    [enableLocal(Global, "en")] writes ",en" both times and the value read
    back after each call is ",en", not "en": the second call is a no-op
    value-wise, but on the value with the empty entry. *)
Theorem enableLocal_twice_reads_back_empty_entry :
  let readBack := getScopedSettingFromVSConfig Key.language (configTargetToScope Target.Global) in
  let twice h :=
    JS.world (@enableLocal obliging Target.Global "en"
                (JS.world (@enableLocal obliging Target.Global "en" h))) in
  readBack (JS.world (@enableLocal obliging Target.Global "en" freshHost)) = Some ",en"
  ∧ readBack (twice freshHost) = Some ",en"
  ∧ updates (twice freshHost)
    = [MkUpdate Key.language (Some ",en") Target.Global;
       MkUpdate Key.language (Some ",en") Target.Global]
  ∧ readBack (twice (configured Key.language "" Target.Global freshHost)) = Some ",en".
Proof. split_and!; by vm_compute. Qed.

(** ** Word addition *)

(** De-duplicating a sorted list and sorting a de-duplicated one come to the
    same list. *)
Lemma unique_sort_commute l : Util.unique (JS.sort l) = JS.sort (Util.unique l).
Proof.
  apply (StronglySorted_unique String.le).
  - apply unique_sorted, sort_sorted.
  - apply sort_sorted.
  - apply NoDup_Permutation.
    + apply unique_NoDup.
    + apply sort_NoDup, unique_NoDup.
    + intros x. by rewrite unique_elem_of, !sort_elem_of, unique_elem_of.
Qed.

Section Words.
Context `{!Collaborators}.

(** C2, amended. [addWordToSettings] reads the word list stored exactly at
    the resolved target's scope (no inheritance), splits [word] on spaces,
    and writes the sorted, de-duplicated union of the two to the resolved
    section and target; adding "foo bar" where ["baz"] is stored writes
    ["bar"; "baz"; "foo"]. *)
Theorem addWordToSettings_writes_sorted_union
    (target : ConfigTarget) (word : string) (h : Host) :
  let useGlobal := isGlobalTarget target || negb (hasWorkspaceLocation h) in
  let resolved : ConfigTarget := if useGlobal then Target.Global else target in
  let section := if useGlobal then Key.userWords else Key.words in
  let stored :=
    JS.orArray
      (inspectScopedSettingFromVSConfig section (configTargetToScope resolved) h) [] in
  ∃ written : list string,
    addWordToSettings target word h
    = setSettingInVSConfig section (Some written) resolved h
    ∧ written = JS.sort (Util.unique (stored ++ JS.split " " word))
    ∧ StronglySorted String.le written
    ∧ NoDup written
    ∧ (∀ w, w ∈ written ↔ w ∈ stored ∨ w ∈ JS.split " " word)
    ∧ (stored = ["baz"] → word = "foo bar" → written = ["bar"; "baz"; "foo"]).
Proof.
  intros useGlobal resolved section stored.
  exists (Util.unique (JS.sort (stored ++ JS.split " " word))).
  split_and!.
  - done.
  - apply unique_sort_commute.
  - apply unique_sorted, sort_sorted.
  - apply unique_NoDup.
  - intros w. by rewrite unique_elem_of, sort_elem_of, elem_of_app.
  - intros -> ->. by vm_compute.
Qed.

(** C7. The write of [addWordToSettings] goes to section [userWords] at
    [Global] when the caller's target is global or there is no workspace
    root, and to section [words] at the caller's target otherwise. *)
Theorem addWordToSettings_resolves_target
    (target : ConfigTarget) (word : string) (h : Host) :
  let after := JS.world (addWordToSettings target word h) in
  if isGlobalTarget target || negb (hasWorkspaceLocation h)
  then ∃ ws, addWordToSettings target word h
             = setSettingInVSConfig Key.userWords (Some ws) Target.Global h
           ∧ updates after = updates h ++ [MkUpdate Key.userWords (Some ws) Target.Global]
           ∧ (JS.outcome (addWordToSettings target word h) = JS.Resolved () →
              userWords (user (vsConfig after)) = Some ws
              ∧ workspace (vsConfig after) = workspace (vsConfig h)
              ∧ folders (vsConfig after) = folders (vsConfig h)
              ∧ words (user (vsConfig after)) = words (user (vsConfig h)))
  else ∃ ws, addWordToSettings target word h
             = setSettingInVSConfig Key.words (Some ws) target h
           ∧ updates after = updates h ++ [MkUpdate Key.words (Some ws) target]
           ∧ (JS.outcome (addWordToSettings target word h) = JS.Resolved () →
              inspectScopedSettingFromVSConfig Key.words (configTargetToScope target) after
              = Some ws
              ∧ user (vsConfig after) = user (vsConfig h)).
Proof.
  intros after. subst after. unfold addWordToSettings.
  destruct (isGlobalTarget target || negb (hasWorkspaceLocation h)) eqn:Hglobal.
  - eexists. split; [done|]. split; [apply setSetting_updates|].
    intros Hok. rewrite (setSetting_resolved _ _ _ _ Hok). done.
  - eexists. split; [done|]. split; [apply setSetting_updates|].
    intros Hok. split.
    + eapply inspectScoped_storeUpdate. by apply setSetting_resolved.
    + rewrite (setSetting_resolved _ _ _ _ Hok).
      apply orb_false_iff in Hglobal as [Hg _]. unfold isGlobalTarget in Hg.
      unfold storeUpdate. by destruct target as [[] [u|]].
Qed.

End Words.

(** C2, as stated, fails: with ["baz"] configured for [words] at user level
    and nothing at workspace level, adding "foo bar" at workspace level
    writes ["bar"; "foo"], while an inherited read would have given
    ["bar"; "baz"; "foo"]. *)
Lemma addWordToSettings_read_is_not_inherited :
  let h := configured Key.words ["baz"] Target.Global freshHost in
  getScopedSettingFromVSConfig Key.words (configTargetToScope Target.Workspace) h
  = Some ["baz"]
  ∧ updates (JS.world (@addWordToSettings obliging Target.Workspace "foo bar" h))
    = [MkUpdate Key.words (Some ["bar"; "foo"]) Target.Workspace]
  ∧ updates (JS.world (@addWordToSettings_asSpecified obliging Target.Workspace "foo bar" h))
    = [MkUpdate Key.words (Some ["bar"; "baz"; "foo"]) Target.Workspace].
Proof. split_and!; by vm_compute. Qed.

(** ** Disabling a locale *)

Lemma filter_absent (x : string) (l : list string) :
  x ∉ l → filter (λ y, y ≠ x) l = l.
Proof.
  induction l as [|y l IH]; [done|]. intros Hx.
  apply not_elem_of_cons in Hx as [Hne Hx].
  rewrite filter_cons_True by done. by rewrite IH.
Qed.

Lemma orUndefined_not_empty s : JS.orUndefined s ≠ Some "".
Proof. by destruct s. Qed.

Lemma orUndefined_Some s : s ≠ "" → JS.orUndefined s = Some s.
Proof. by destruct s. Qed.

Section DisableLocal.
Context `{!Collaborators}.

(** C4. [disableLocal] never writes the empty string; when removing the
    normalized locale from the normalized value stored exactly at the
    target's scope leaves no entries, it writes [undefined], after which
    nothing is stored at that scope. *)
Theorem disableLocal_last_locale_clears (target : ConfigTarget) (local : string) (h : Host) :
  let stored := inspectScopedSettingFromVSConfig Key.language (configTargetToScope target) h in
  let remaining :=
    filter (λ lang, lang ≠ normalizeLocal local)
      (JS.split "," (normalizeLocal (JS.orString stored ""))) in
  let result := disableLocal target local h in
  ∃ written : option string,
    result = setSettingInVSConfig Key.language written target h
    ∧ updates (JS.world result) = updates h ++ [MkUpdate Key.language written target]
    ∧ written ≠ Some ""
    ∧ (remaining = [] →
       written = None
       ∧ (JS.outcome result = JS.Resolved () →
          inspectScopedSettingFromVSConfig Key.language (configTargetToScope target)
            (JS.world result) = None)).
Proof.
  intros stored remaining result.
  exists (JS.orUndefined (JS.join "," remaining)). split_and!.
  - done.
  - apply setSetting_updates.
  - apply orUndefined_not_empty.
  - intros Hnone. split; [by rewrite Hnone|]. intros Hok.
    subst result. unfold disableLocal in *. fold stored remaining in Hok |- *.
    rewrite Hnone in Hok |- *. cbn [JS.join JS.orUndefined] in Hok |- *.
    eapply inspectScoped_storeUpdate. by apply setSetting_resolved.
Qed.

(** C5, amended. [disableLocal] works from the value stored exactly at the
    target's scope: two hosts that store the same value there get the same
    value written, whatever broader scopes hold.  When the normalized
    locale is not an entry of that value's normalized form, the value
    written is that normalized form, or [undefined] when it is empty; so a
    stored value that is not empty and is its own normalized form reads
    back unchanged. *)
Theorem disableLocal_absent_locale (target : ConfigTarget) (local : string) (h : Host) :
  let exactly := inspectScopedSettingFromVSConfig Key.language (configTargetToScope target) in
  let result := disableLocal target local h in
  ∃ written : option string,
    result = setSettingInVSConfig Key.language written target h
    ∧ (∀ h', exactly h' = exactly h →
         disableLocal target local h' = setSettingInVSConfig Key.language written target h')
    ∧ (normalizeLocal local ∉ JS.split "," (normalizeLocal (JS.orString (exactly h) "")) →
       written = JS.orUndefined (normalizeLocal (JS.orString (exactly h) ""))
       ∧ ∀ s, exactly h = Some s → s ≠ "" → normalizeLocal s = s →
           written = Some s
           ∧ (JS.outcome result = JS.Resolved () → exactly (JS.world result) = Some s)).
Proof.
  intros exactly result.
  exists (JS.orUndefined (JS.join ","
    (filter (λ lang, lang ≠ normalizeLocal local)
       (JS.split "," (normalizeLocal (JS.orString (exactly h) "")))))).
  split_and!.
  - done.
  - intros h' Heq. unfold disableLocal. fold exactly. by rewrite Heq.
  - intros Habsent. rewrite filter_absent by done.
    rewrite (join_split ","). split; [done|].
    intros s Hs Hne Hnorm.
    assert (JS.orString (Some s) "" = s) as Hor by apply orString_Some.
    rewrite Hs, Hor, Hnorm, orUndefined_Some by done. split; [done|].
    intros Hok. subst result exactly. cbv beta.
    unfold disableLocal in Hok |- *.
    eapply inspectScoped_storeUpdate.
    rewrite (setSetting_resolved _ _ _ _ Hok).
    f_equal. rewrite filter_absent by done. rewrite (join_split ",").
    rewrite Hs, Hor, Hnorm. by apply orUndefined_Some.
Qed.

End DisableLocal.

(** ** Language ids *)

Section LanguageIds.
Context `{!Collaborators}.


End LanguageIds.

(** ** Settings files *)

Section SettingsFiles.
Context `{!Collaborators}.

Lemma enableLanguageIdInConfig_folders target languageId h :
  workspaceFolders (JS.world (enableLanguageIdInConfig target languageId h))
  = workspaceFolders h.
Proof. by split_on_update. Qed.

Lemma disableLanguageIdInConfig_folders target languageId h :
  workspaceFolders (JS.world (disableLanguageIdInConfig target languageId h))
  = workspaceFolders h.
Proof. by split_on_update. Qed.

Lemma enableLanguageIdInConfig_detached target languageId h :
  JS.detached (enableLanguageIdInConfig target languageId h) = [].
Proof. by split_on_update. Qed.

Lemma disableLanguageIdInConfig_detached target languageId h :
  JS.detached (disableLanguageIdInConfig target languageId h) = [].
Proof. by split_on_update. Qed.

Lemma findSettingsFiles_rootless uri h :
  workspaceFolders h = None ∨ workspaceFolders h = Some [] →
  findSettingsFiles uri h = JS.Normal (JS.resolve []).
Proof. unfold findSettingsFiles, hasWorkspaceLocation. by intros [-> | ->]. Qed.

(** C8. With no workspace root ([workspaceFolders] absent or empty),
    [findSettingsFiles] returns, for any [uri], a promise resolved with the
    empty list; [enableLanguage] and [disableLanguage] then do what the
    configuration write alone does and call no settings-file operation. *)
Theorem findSettingsFiles_without_workspace_root
    (docUri : option Uri) (target : ConfigTarget) (languageId : string) (h : Host) :
  workspaceFolders h = None ∨ workspaceFolders h = Some [] →
  (∃ found : Thenable (list Uri),
      findSettingsFiles docUri h = JS.Normal found
      ∧ ∀ h', JS.outcome (found h') = JS.Resolved [] ∧ JS.world (found h') = h')
  ∧ JS.eventually (enableLanguage target languageId) h
    = JS.world (enableLanguageIdInConfig target languageId h)
  ∧ JS.eventually (disableLanguage target languageId) h
    = JS.world (disableLanguageIdInConfig target languageId h)
  ∧ fileCalls (JS.eventually (enableLanguage target languageId) h) = fileCalls h
  ∧ fileCalls (JS.eventually (disableLanguage target languageId) h) = fileCalls h.
Proof.
  intros Hroot.
  assert (JS.eventually (enableLanguage target languageId) h
          = JS.world (enableLanguageIdInConfig target languageId h)) as Henable.
  { unfold JS.eventually, enableLanguage, JS.andThen.
    pose proof (enableLanguageIdInConfig_folders target languageId h) as Hwf.
    pose proof (enableLanguageIdInConfig_detached target languageId h) as Hdet.
    destruct (enableLanguageIdInConfig target languageId h) as [[langs|e] h1 d1];
      cbn in *; subst d1; [|done].
    destruct (isConfigTargetWithResource target && isFolderLevelTarget target); [|done].
    unfold findExistingSettingsFileLocation.
    rewrite findSettingsFiles_rootless by (by rewrite Hwf). done. }
  assert (JS.eventually (disableLanguage target languageId) h
          = JS.world (disableLanguageIdInConfig target languageId h)) as Hdisable.
  { unfold JS.eventually, disableLanguage, JS.andThen.
    pose proof (disableLanguageIdInConfig_folders target languageId h) as Hwf.
    pose proof (disableLanguageIdInConfig_detached target languageId h) as Hdet.
    destruct (disableLanguageIdInConfig target languageId h) as [[langs|e] h1 d1];
      cbn in *; subst d1; [|done].
    destruct (isConfigTargetWithResource target && isFolderLevelTarget target); [|done].
    unfold findExistingSettingsFileLocation.
    rewrite findSettingsFiles_rootless by (by rewrite Hwf). done. }
  split_and!.
  - exists (JS.resolve []). split; [by apply findSettingsFiles_rootless | done].
  - done.
  - done.
  - rewrite Henable.
    by split_on_update.
  - rewrite Hdisable.
    by split_on_update.
Qed.

(** The lookup only reads: its promise resolves, leaves the world as it
    found it and detaches nothing. *)
Lemma findExisting_reads_only docUri h location h' :
  findExistingSettingsFileLocation docUri h = JS.Normal location →
  (∃ found, JS.outcome (location h') = JS.Resolved found)
  ∧ JS.world (location h') = h'
  ∧ JS.detached (location h') = [].
Proof.
  unfold findExistingSettingsFileLocation, findSettingsFiles.
  destruct (workspaceFolders h) as [wf|]; [|intros [= <-]; by eauto].
  destruct (negb (hasWorkspaceLocation h)); [intros [= <-]; by eauto|].
  destruct (JS.reduce _ _); [|done]. intros [= <-]. by eauto.
Qed.

End SettingsFiles.


(** ** Commands *)

Section Commands.
Context `{!Collaborators}.

(** C10. The handlers registered for [cSpell.enableForWorkspace] and for
    [cSpell.disableForWorkspace] are the same call,
    [setEnableSpellChecking(Target.Workspace, false)]: each invocation of
    either issues the update [enabled = false] at workspace scope, after
    which, when the store took it, [enabled] is [false] there. *)
Theorem workspace_commands_both_disable (h : Host) :
  let disable := setEnableSpellChecking Target.Workspace false in
  commandHandler "cSpell.enableForWorkspace" = Some (InPlace disable)
  ∧ commandHandler "cSpell.disableForWorkspace" = Some (InPlace disable)
  ∧ updates (JS.world (disable h))
    = updates h ++ [MkUpdate Key.enabled (Some false) Target.Workspace]
  ∧ (JS.outcome (disable h) = JS.Resolved () →
     enabled (workspace (vsConfig (JS.world (disable h)))) = Some false
     ∧ inspectScopedSettingFromVSConfig Key.enabled (configTargetToScope Target.Workspace)
         (JS.world (disable h)) = Some false).
Proof.
  intros disable. split_and!.
  - done.
  - done.
  - apply setSetting_updates.
  - intros Hok. subst disable. unfold setEnableSpellChecking in *.
    pose proof (setSetting_resolved _ _ _ _ Hok) as Hstore.
    split.
    + by rewrite Hstore.
    + by eapply inspectScoped_storeUpdate.
Qed.

End Commands.

(** ** The claims on concrete hosts *)

(** C2's theorem at work: with ["baz"] stored for [words] at workspace
    level, adding "foo bar" there writes ["bar"; "baz"; "foo"]. *)
Lemma addWordToSettings_foo_bar :
  let h := configured Key.words ["baz"] Target.Workspace freshHost in
  updates (JS.world (@addWordToSettings obliging Target.Workspace "foo bar" h))
  = [MkUpdate Key.words (Some ["bar"; "baz"; "foo"]) Target.Workspace].
Proof.
  intros h.
  destruct (@addWordToSettings_writes_sorted_union obliging Target.Workspace "foo bar" h)
    as (written & -> & _ & _ & _ & _ & Hexample).
  rewrite Hexample by (by vm_compute). by vm_compute.
Defined.

(** With "en" configured at user level, enabling "en" twice at user level
    reads back "en", and both updates carry "en". *)
Lemma enableLocal_en_twice :
  let h := configured Key.language "en" Target.Global freshHost in
  let h2 := JS.world (@enableLocal obliging Target.Global "en"
              (JS.world (@enableLocal obliging Target.Global "en" h))) in
  getScopedSettingFromVSConfig Key.language (configTargetToScope Target.Global) h2
  = Some "en"
  ∧ updates h2 = [MkUpdate Key.language (Some "en") Target.Global;
                  MkUpdate Key.language (Some "en") Target.Global].
Proof.
  intros h h2.
  destruct (@enableLocal_twice_same_value obliging Target.Global "en" h)
    as (v & _ & Hupdates & Hread & Hen).
  rewrite (Hen eq_refl eq_refl) in Hupdates, Hread.
  split; [|exact Hupdates].
  destruct (Hread eq_refl) as [_ Hsecond]. by destruct (Hsecond eq_refl).
Defined.

(** C4's theorem at work: with exactly "en" stored at workspace level,
    disabling "en" there writes [undefined] and leaves nothing stored. *)
Lemma disableLocal_last_locale_en :
  let h := configured Key.language "en" Target.Workspace freshHost in
  let after := JS.world (@disableLocal obliging Target.Workspace "en" h) in
  updates after = [MkUpdate Key.language None Target.Workspace]
  ∧ inspectScopedSettingFromVSConfig Key.language (configTargetToScope Target.Workspace) after
    = None.
Proof.
  intros h after.
  destruct (@disableLocal_last_locale_clears obliging Target.Workspace "en" h)
    as (written & _ & Hupdates & _ & Hlast).
  destruct (Hlast eq_refl) as [-> Hstored].
  split; [exact Hupdates | exact (Hstored eq_refl)].
Defined.

(** C5's theorem at work: with "en,fr" stored at workspace level, disabling
    "de" there leaves "en,fr" stored. *)
Lemma disableLocal_absent_de :
  let h := configured Key.language "en,fr" Target.Workspace freshHost in
  let exactly :=
    inspectScopedSettingFromVSConfig Key.language (configTargetToScope Target.Workspace) in
  exactly h = Some "en,fr"
  ∧ exactly (JS.world (@disableLocal obliging Target.Workspace "de" h)) = Some "en,fr".
Proof.
  intros h exactly. split; [done|].
  destruct (@disableLocal_absent_locale obliging Target.Workspace "de" h)
    as (written & _ & _ & Habsent).
  destruct Habsent as [_ Hsame].
  { apply (proj1 (bool_decide_eq_false _)). by vm_compute. }
  by destruct (Hsame "en,fr" eq_refl ltac:(done) eq_refl) as [_ Hread]; apply Hread.
Defined.

(** C5, as stated, fails: with "EN,fr" stored at workspace level, "de" is
    not among its entries, yet disabling "de" there leaves "en,fr" stored;
    and with the empty string stored, disabling "de" leaves nothing
    stored. *)
Lemma disableLocal_absent_locale_changes_value :
  let exactly :=
    inspectScopedSettingFromVSConfig Key.language (configTargetToScope Target.Workspace) in
  let h := configured Key.language "EN,fr" Target.Workspace freshHost in
  let h' := configured Key.language "" Target.Workspace freshHost in
  (exactly h = Some "EN,fr"
   ∧ JS.split "," "EN,fr" = ["EN"; "fr"]
   ∧ exactly (JS.world (@disableLocal obliging Target.Workspace "de" h)) = Some "en,fr")
  ∧ (exactly h' = Some ""
     ∧ exactly (JS.world (@disableLocal obliging Target.Workspace "de" h')) = None).
Proof. split_and!; by vm_compute. Qed.


(** C7's theorem at work: with no folder open, a word meant for the
    workspace goes to [userWords] at [Global]. *)
Lemma addWordToSettings_rootless :
  ∃ ws : list string,
    updates (JS.world (@addWordToSettings obliging Target.Workspace "foo" rootlessHost))
    = [MkUpdate Key.userWords (Some ws) Target.Global].
Proof.
  pose proof (@addWordToSettings_resolves_target obliging Target.Workspace "foo"
                rootlessHost) as Hresolved.
  cbv zeta in Hresolved.
  change (isGlobalTarget Target.Workspace || negb (hasWorkspaceLocation rootlessHost))
    with true in Hresolved.
  destruct Hresolved as (ws & _ & Hupdates & _).
  exists ws. exact Hupdates.
Defined.

(** C10's theorem at work: on a fresh editor, running the handler of
    [cSpell.enableForWorkspace] leaves [enabled] false at workspace level. *)
Lemma enableForWorkspace_disables :
  ∃ run : Thenable unit,
    @commandHandler obliging "cSpell.enableForWorkspace" = Some (InPlace run)
    ∧ enabled (workspace (vsConfig (JS.world (run freshHost)))) = Some false.
Proof.
  destruct (@workspace_commands_both_disable obliging freshHost)
    as (Henable & _ & _ & Hstore).
  eexists. split; [exact Henable|]. exact (proj1 (Hstore eq_refl)).
Defined.

(** C8's theorem at work: an editor with no folder open. *)
Lemma findSettingsFiles_rootless_host :
  workspaceFolders rootlessHost = None
  ∧ (∃ found, @findSettingsFiles obliging (Some "/proj/src/main.ts") rootlessHost
              = JS.Normal found
              ∧ JS.outcome (found rootlessHost) = JS.Resolved [])
  ∧ fileCalls (JS.eventually (@enableLanguage obliging documentTarget "rust") rootlessHost)
    = [].
Proof.
  split; [reflexivity|].
  destruct (@findSettingsFiles_without_workspace_root obliging
              (Some "/proj/src/main.ts") documentTarget "rust" rootlessHost
              (or_introl eq_refl))
    as ((found & Hfind & Hfound) & _ & _ & Hcalls & _).
  split; [|exact Hcalls].
  exists found. split; [exact Hfind | exact (proj1 (Hfound rootlessHost))].
Defined.



(** * Further properties of the code *)

(** ** Finding the settings file *)

Lemma string_app_assoc (a b c : string) : (a +:+ b) +:+ c = a +:+ (b +:+ c).
Proof.
  induction a as [|x a IH]; [done|].
  change (String x ((a +:+ b) +:+ c) = String x (a +:+ (b +:+ c))). by rewrite IH.
Qed.

Lemma string_app_not_empty_l (a b : string) : a ≠ "" → a +:+ b ≠ "".
Proof. by destruct a. Qed.

Lemma string_app_not_empty_r (a b : string) : b ≠ "" → a +:+ b ≠ "".
Proof. destruct a; [|done]. by intros. Qed.

(** [path.normalize] and [path.join] never give the empty string. *)
Lemma pathNormalize_not_empty path : JS.pathNormalize path ≠ "".
Proof.
  unfold JS.pathNormalize. destruct path as [|c path]; [done|].
  cbv beta iota zeta.
  destruct (JS.normalizeString _ _) as [|d normalized].
  - destruct (JS.startsWithSlash _); [done|]. by destruct (JS.endsWithSlash _).
  - destruct (JS.startsWithSlash _).
    + by apply string_app_not_empty_l.
    + destruct (JS.endsWithSlash _); [by apply string_app_not_empty_l | done].
Qed.

Lemma pathJoinAll_not_empty paths : JS.pathJoinAll paths ≠ "".
Proof.
  unfold JS.pathJoinAll. destruct (filter _ paths); [done|].
  apply pathNormalize_not_empty.
Qed.

Lemma pathJoin_not_empty root rel : JS.pathJoin root rel ≠ "".
Proof. apply pathJoinAll_not_empty. Qed.

(** What [reduce((a, b) => a.concat(b))] holds. *)
Lemma elem_of_foldl_app {A} (x : A) (a : list A) (rest : list (list A)) :
  x ∈ foldl app a rest ↔ x ∈ a ∨ ∃ b, b ∈ rest ∧ x ∈ b.
Proof.
  revert a. induction rest as [|b rest IH]; intros a; cbn.
  - set_solver.
  - rewrite IH, elem_of_app. split.
    + intros [[?|?]|(b' & ? & ?)]; [by left|right; exists b; set_solver
                                    |right; exists b'; set_solver].
    + intros [?|(b' & [->|?]%elem_of_cons & ?)]; [by left; left|by left; right|].
      right. by exists b'.
Qed.

(** The head of a list sorted by length is the first of its shortest
    entries. *)
Lemma sortByLength_head (l : list string) :
  match head (JS.sortByLength l) with
  | None => l = []
  | Some p =>
      ∃ before after,
        l = before ++ p :: after
        ∧ Forall (λ q, String.length p < String.length q)%nat before
        ∧ Forall (λ q, String.length p ≤ String.length q)%nat after
  end.
Proof.
  induction l as [|x l IH]; [done|].
  change (JS.sortByLength (x :: l)) with (JS.insertByLength x (JS.sortByLength l)).
  destruct (JS.sortByLength l) as [|y sorted]; cbn in *.
  - subst l. exists [], []. by repeat constructor.
  - destruct IH as (before & after & -> & Hbefore & Hafter).
    destruct (Nat.leb_spec (String.length x) (String.length y)) as [Hle|Hgt]; cbn.
    + exists [], (before ++ y :: after). split; [done|]. split; [constructor|].
      apply Forall_app. split.
      * eapply Forall_impl; [exact Hbefore|]. cbn. lia.
      * constructor; [done|]. eapply Forall_impl; [exact Hafter|]. cbn. lia.
    + exists (x :: before), after. split; [done|]. split; [|done].
      by constructor.
Qed.

Section FindingSettingsFiles.
Context `{!Collaborators}.

(** The folders [findSettingsFiles] probes: the owner of the uri when one
    is given, every open folder otherwise. *)
Lemma findSettingsFiles_probes docUri h wf :
  workspaceFolders h = Some wf → wf ≠ [] →
  let probed :=
    match docUri with
    | Some u => option_list (getWorkspaceFolder wf u)
    | None => wf
    end in
  match probed with
  | [] => findSettingsFiles docUri h = JS.Throw JS.TypeError
  | _ :: _ =>
      ∃ candidates,
        findSettingsFiles docUri h
        = JS.Normal (λ h',
            JS.resolve
              (uriFile <$> filter (λ filename, filename ∈ existingFiles h') candidates) h')
        ∧ ∀ p, p ∈ candidates ↔
               ∃ folder rel, folder ∈ probed ∧ rel ∈ configFileLocations
                             ∧ p = JS.pathJoin (fsPath folder) rel
  end.
Proof.
  intros Hwf Hne probed. unfold findSettingsFiles, hasWorkspaceLocation.
  rewrite Hwf. destruct wf as [|f0 wf0]; [done|]. cbn [negb].
  fold probed. destruct probed as [|folder folders]; [done|].
  cbn [fmap list_fmap JS.reduce]. eexists. split; [done|].
  intros p. rewrite elem_of_foldl_app. split.
  - intros [Hp|(b & Hb & Hp)].
    + apply list_elem_of_fmap in Hp as (rel & -> & Hrel).
      exists folder, rel. set_solver.
    + apply list_elem_of_fmap in Hb as (root & -> & Hroot).
      apply list_elem_of_fmap in Hroot as (folder' & -> & Hfolder).
      apply list_elem_of_fmap in Hp as (rel & -> & Hrel).
      exists folder', rel. set_solver.
  - intros (folder' & rel & [->|Hfolder]%elem_of_cons & Hrel & ->).
    + left. apply list_elem_of_fmap. by exists rel.
    + right. exists (JS.pathJoin (fsPath folder') <$> configFileLocations). split.
      * apply list_elem_of_fmap. exists (fsPath folder'). split; [done|].
        apply list_elem_of_fmap. by exists folder'.
      * apply list_elem_of_fmap. by exists rel.
Qed.

(** X1. With a workspace root, the promise [findSettingsFiles] returns
    resolves, leaving the world as it is, with exactly the candidate paths
    that exist: a path is found if and only if it exists and is
    [path.join(root, rel)] for a probed folder's root and one of the four
    [configFileLocations]. *)
Theorem findSettingsFiles_finds_existing_candidates
    (docUri : option Uri) (h : Host) (wf : list WorkspaceFolder)
    (found : Thenable (list Uri)) (h' : Host) :
  workspaceFolders h = Some wf → wf ≠ [] →
  findSettingsFiles docUri h = JS.Normal found →
  let probed :=
    match docUri with
    | Some u => option_list (getWorkspaceFolder wf u)
    | None => wf
    end in
  ∃ uris : list Uri,
    found h' = JS.resolve uris h'
    ∧ ∀ p, p ∈ uris ↔
           p ∈ existingFiles h'
           ∧ ∃ folder rel, folder ∈ probed ∧ rel ∈ configFileLocations
                           ∧ p = JS.pathJoin (fsPath folder) rel.
Proof.
  intros Hwf Hne Hfound probed.
  pose proof (findSettingsFiles_probes docUri h wf Hwf Hne) as Hprobes.
  cbv zeta in Hprobes. fold probed in Hprobes.
  destruct probed as [|folder folders]; [congruence|].
  destruct Hprobes as (candidates & Heq & Hcandidates).
  rewrite Heq in Hfound. injection Hfound as <-.
  eexists. split; [done|].
  intros p. unfold uriFile. rewrite list_fmap_id, list_elem_of_filter, Hcandidates. done.
Qed.

(** X2. When the target's uri belongs to no open folder, the lookup of the
    settings file throws a [TypeError] ([reduce] of an empty array): the
    promises of [enableLanguage] and [disableLanguage] then reject with it,
    although the configuration update has already been made, and no
    settings-file call is made. *)
Theorem language_update_outside_workspace
    (target : ConfigTarget) (languageId : string) (u : Uri) (h : Host)
    (wf : list WorkspaceFolder) :
  workspaceFolders h = Some wf → wf ≠ [] →
  uri target = Some u → isFolderLevelTarget target = true →
  getWorkspaceFolder wf u = None →
  findSettingsFiles (Some u) h = JS.Throw JS.TypeError
  ∧ (∀ langs,
       JS.outcome (enableLanguageIdInConfig target languageId h) = JS.Resolved langs →
       let r := enableLanguage target languageId h in
       JS.outcome r = JS.Rejected JS.TypeError
       ∧ updates (JS.world r)
         = updates h ++ [MkUpdate Key.enabledLanguageIds (Some langs) target]
       ∧ inspectScopedSettingFromVSConfig Key.enabledLanguageIds
           (configTargetToScope target) (JS.world r) = Some langs
       ∧ JS.eventually (enableLanguage target languageId) h = JS.world r
       ∧ fileCalls (JS.world r) = fileCalls h)
  ∧ (∀ langs,
       JS.outcome (disableLanguageIdInConfig target languageId h) = JS.Resolved langs →
       let r := disableLanguage target languageId h in
       JS.outcome r = JS.Rejected JS.TypeError
       ∧ updates (JS.world r)
         = updates h ++ [MkUpdate Key.enabledLanguageIds (Some langs) target]
       ∧ inspectScopedSettingFromVSConfig Key.enabledLanguageIds
           (configTargetToScope target) (JS.world r) = Some langs
       ∧ fileCalls (JS.world r) = fileCalls h).
Proof.
  intros Hwf Hne Hu Hfolder Howner.
  assert (∀ h1, workspaceFolders h1 = workspaceFolders h →
            findExistingSettingsFileLocation (uri target) h1 = JS.Throw JS.TypeError)
    as Hthrow.
  { intros h1 Hsame. unfold findExistingSettingsFileLocation.
    rewrite Hwf in Hsame.
    pose proof (findSettingsFiles_probes (Some u) h1 wf Hsame Hne) as Hp.
    cbn in Hp. rewrite Howner in Hp. cbn in Hp. by rewrite Hu, Hp. }
  assert (isConfigTargetWithResource target = true) as Hres
    by (unfold isConfigTargetWithResource; by rewrite Hu).
  split_and!.
  - pose proof (findSettingsFiles_probes (Some u) h wf Hwf Hne) as Hp.
    cbn in Hp. by rewrite Howner in Hp.
  - intros langs Hok r. subst r.
    unfold JS.eventually, enableLanguage, JS.andThen. rewrite Hok, Hres, Hfolder. cbn [andb].
    rewrite Hthrow by apply enableLanguageIdInConfig_folders.
    rewrite enableLanguageIdInConfig_detached. cbn.
    revert Hok. unfold enableLanguageIdInConfig, JS.thenValue, JS.andThen, JS.resolve.
    destruct (JS.outcome (setSettingInVSConfig _ _ _ _)) as [[]|e] eqn:Hset; [|done].
    cbn. intros [= <-]. split_and!; try done.
    + apply setSetting_updates.
    + eapply inspectScoped_storeUpdate. by apply setSetting_resolved.
    + clear Hset. by split_on_update.
  - intros langs Hok r. subst r.
    unfold disableLanguage, JS.andThen. rewrite Hok, Hres, Hfolder. cbn [andb].
    rewrite Hthrow by apply disableLanguageIdInConfig_folders. cbn.
    revert Hok. unfold disableLanguageIdInConfig, JS.thenValue, JS.andThen, JS.resolve.
    destruct (JS.outcome (setSettingInVSConfig _ _ _ _)) as [[]|e] eqn:Hset; [|done].
    cbn. intros [= <-]. split_and!; try done.
    + apply setSetting_updates.
    + eapply inspectScoped_storeUpdate. by apply setSetting_resolved.
    + clear Hset. by split_on_update.
Qed.

(** X3. [findExistingSettingsFileLocation] resolves with [undefined]
    exactly when no settings file was found, and otherwise with the first
    of the shortest paths found: every path found before it is strictly
    longer, every path found after it is at least as long. *)
Theorem findExistingSettingsFileLocation_first_shortest
    (docUri : option Uri) (h : Host) (found : Thenable (list Uri)) (h' : Host)
    (uris : list Uri) :
  findSettingsFiles docUri h = JS.Normal found →
  JS.outcome (found h') = JS.Resolved uris →
  ∃ location choice,
    findExistingSettingsFileLocation docUri h = JS.Normal location
    ∧ JS.outcome (location h') = JS.Resolved choice
    ∧ match choice with
      | None => uris = []
      | Some p =>
          ∃ before after,
            uris = before ++ p :: after
            ∧ Forall (λ q, String.length p < String.length q)%nat before
            ∧ Forall (λ q, String.length p ≤ String.length q)%nat after
      end.
Proof.
  intros Hfound Huris. unfold findExistingSettingsFileLocation. rewrite Hfound.
  eexists _, (head (JS.sortByLength uris)). split; [done|]. split.
  - unfold JS.thenValue, JS.andThen. rewrite Huris. cbn.
    unfold uriFsPath. by rewrite list_fmap_id.
  - apply sortByLength_head.
Qed.

End FindingSettingsFiles.

Section LocatingTheSettingsFile.
Context `{!Collaborators}.

(** Joining a root, ".vscode" and a file name is joining the root and
    ".vscode/" followed by the file name: the same text is normalized. *)
Lemma pathJoinAll_vscode (root name : string) :
  root ≠ "" → name ≠ "" →
  JS.pathJoinAll [root; ".vscode"; name] = JS.pathJoin root (".vscode/" +:+ name).
Proof.
  intros Hroot Hname. unfold JS.pathJoin, JS.pathJoinAll.
  rewrite !filter_cons_True by done. rewrite filter_nil. done.
Qed.

(** X4. With a first workspace folder of non-empty path, and a settings
    file name that is not empty, [findSettingsFileLocation] never throws
    and always resolves with a path: an existing candidate, or, when no
    candidate exists, the default [path.join(root, '.vscode',
    baseConfigName)] of the first folder.  That default is itself a
    candidate, so once a file exists there the lookup resolves with an
    existing file. *)
Theorem findSettingsFileLocation_always_locates
    (h : Host) (folder : WorkspaceFolder) (rest : list WorkspaceFolder) :
  workspaceFolders h = Some (folder :: rest) → fsPath folder ≠ "" →
  baseConfigName ≠ "" →
  let fallback := JS.pathJoinAll [fsPath folder; ".vscode"; baseConfigName] in
  let candidate p :=
    ∃ f rel, f ∈ folder :: rest ∧ rel ∈ configFileLocations
             ∧ p = JS.pathJoin (fsPath f) rel in
  candidate fallback
  ∧ ∃ location,
      findSettingsFileLocation h = JS.Normal location
      ∧ ∀ h', workspaceFolders h' = workspaceFolders h →
          ∃ p, location h' = JS.resolve (Some p) h'
               ∧ ((p ∈ existingFiles h' ∧ candidate p)
                  ∨ (p = fallback ∧ ∀ q, candidate q → q ∉ existingFiles h'))
               ∧ (fallback ∈ existingFiles h' → p ∈ existingFiles h').
Proof.
  intros Hwf Hroot Hname fallback candidate.
  assert (candidate fallback) as Hfallback.
  { exists folder, (".vscode/" +:+ baseConfigName). split; [left|]. split.
    - unfold configFileLocations. set_solver.
    - by apply pathJoinAll_vscode. }
  split; [done|].
  pose proof (findSettingsFiles_probes None h (folder :: rest) Hwf ltac:(done))
    as (candidates & Hfind & Hcandidates).
  unfold findSettingsFileLocation, findExistingSettingsFileLocation. rewrite Hfind.
  eexists. split; [done|]. intros h' Hsame.
  unfold JS.thenValue, JS.andThen, JS.resolve. cbn.
  unfold uriFile, uriFsPath. rewrite !list_fmap_id.
  set (existing := filter (λ filename, filename ∈ existingFiles h') candidates).
  assert (∀ q, q ∈ existing ↔ q ∈ existingFiles h' ∧ candidate q) as Hexisting.
  { intros q. subst existing. by rewrite list_elem_of_filter, Hcandidates. }
  pose proof (sortByLength_head existing) as Hhead.
  destruct (head (JS.sortByLength existing)) as [p|].
  - destruct Hhead as (before & after & Heq & _).
    assert (p ∈ existing) as Hp by (rewrite Heq; set_solver).
    apply Hexisting in Hp as [Hp Hcand].
    assert (p ≠ "") as Hne.
    { destruct Hcand as (f & rel & _ & _ & ->). apply pathJoin_not_empty. }
    exists p. split; [by destruct p|]. split; [by left|done].
  - exists fallback. split_and!.
    + unfold getDefaultWorkspaceConfigLocation. rewrite Hsame, Hwf. cbn.
      by destruct (fsPath folder).
    + right. split; [done|]. intros q Hq Hin.
      assert (q ∈ existing) as Hmem by (by apply Hexisting).
      rewrite Hhead in Hmem. by apply not_elem_of_nil in Hmem.
    + intros Hin. assert (fallback ∈ existing) as Hmem by (by apply Hexisting).
      rewrite Hhead in Hmem. by apply not_elem_of_nil in Hmem.
Qed.

(** [CSpellSettings.readSettings] *)
Variable readSettings : string → Thenable CSpellUserSettings.

(** X5. With no workspace root, [findSettingsFileLocation] resolves with
    [undefined] and [loadTheSettingsFile] resolves with [undefined] without
    reading any file: whatever [readSettings] would do, the world is left
    as it was. *)
Theorem loadTheSettingsFile_without_workspace_root (h : Host) :
  workspaceFolders h = None ∨ workspaceFolders h = Some [] →
  ∃ location load,
    findSettingsFileLocation h = JS.Normal location
    ∧ loadTheSettingsFile readSettings h = JS.Normal load
    ∧ ∀ h', workspaceFolders h' = workspaceFolders h →
        location h' = JS.resolve None h' ∧ load h' = JS.resolve None h'.
Proof.
  intros Hroot.
  unfold loadTheSettingsFile, findSettingsFileLocation, findExistingSettingsFileLocation.
  rewrite (findSettingsFiles_rootless None h Hroot).
  eexists _, _. split; [done|]. split; [done|]. intros h' Hsame.
  unfold JS.thenValue, JS.andThen, JS.resolve, getDefaultWorkspaceConfigLocation. cbn.
  rewrite Hsame. by destruct Hroot as [-> | ->].
Qed.

End LocatingTheSettingsFile.

(** ** Overriding the locale *)

Lemma withSetting_absent {A} (k : Key.t A) s : setting k s = None → withSetting k None s = s.
Proof. destruct s, k; cbn; by intros ->. Qed.

(** Removing a value that is not stored changes no read. *)
Lemma storeUpdate_absent {A B} (k : Key.t A) (k' : Key.t B) t resource h h' :
  inspectScopedSettingFromVSConfig k (configTargetToScope t) h = None →
  vsConfig h' = storeUpdate k None t (vsConfig h) →
  inspectSettingFromVSConfig k' resource h' = inspectSettingFromVSConfig k' resource h.
Proof.
  unfold inspectScopedSettingFromVSConfig, inspectSettingFromVSConfig, storeUpdate.
  intros Hnone ->.
  destruct t as [[] [u|]]; cbn in *; rewrite ?withSetting_absent by done; try done.
  f_equal. destruct resource as [r|]; [|done]. cbn.
  destruct (decide (u = r)) as [->|Hne].
  - rewrite lookup_insert_eq. cbn.
    destruct (folders (vsConfig h) !! r) as [s|]; cbn in *.
    + by rewrite (withSetting_absent k s Hnone).
    + rewrite (withSetting_absent k noSettings) by by destruct k.
      by destruct k'.
  - by rewrite lookup_insert_ne.
Qed.

Section OverrideLocal.
Context `{!Collaborators}.

(** X6. [overrideLocal(true, target)] never writes the empty string.  When
    the effective [language] at the target's scope is a non-empty string it
    writes that string at the target's scope, after which it is stored
    there and still the effective value; when the effective value is unset
    or empty it writes [undefined].  [overrideLocal(false, target)] always
    writes [undefined]. *)
Theorem overrideLocal_materializes_effective (target : ConfigTarget) (h : Host) :
  let effective := getScopedSettingFromVSConfig Key.language (configTargetToScope target) in
  let exactly := inspectScopedSettingFromVSConfig Key.language (configTargetToScope target) in
  let r := overrideLocal true target h in
  overrideLocal false target h = setSettingInVSConfig Key.language None target h
  ∧ ∃ written : option string,
      r = setSettingInVSConfig Key.language written target h
      ∧ written ≠ Some ""
      ∧ (JS.orString (effective h) "" = "" → written = None)
      ∧ (∀ s, effective h = Some s → s ≠ "" →
           written = Some s
           ∧ (JS.outcome r = JS.Resolved () →
              exactly (JS.world r) = Some s ∧ effective (JS.world r) = Some s)).
Proof.
  intros effective exactly r. split; [done|].
  exists (orElse (effective h) None). split_and!.
  - done.
  - by destruct (effective h) as [[]|].
  - by destruct (effective h) as [[]|].
  - intros s Hs Hne. rewrite Hs.
    assert (orElse (Some s) None = Some s) as Hwritten by (by destruct s).
    split; [done|]. intros Hok. subst r. unfold overrideLocal in Hok |- *.
    fold effective in Hok |- *. rewrite Hs, Hwritten in Hok |- *. split.
    + eapply inspectScoped_storeUpdate. by apply setSetting_resolved.
    + eapply getScoped_storeUpdate. by apply setSetting_resolved.
Qed.

(** X7. Where nothing is stored for [language] at the target's scope,
    [overrideLocal(true, target)] followed by [overrideLocal(false,
    target)], both taken by the store, leaves every read of every setting
    at every scope as it was before. *)
Theorem overrideLocal_round_trip (target : ConfigTarget) (h : Host) :
  inspectScopedSettingFromVSConfig Key.language (configTargetToScope target) h = None →
  let first := overrideLocal true target h in
  let second := overrideLocal false target (JS.world first) in
  JS.outcome first = JS.Resolved () → JS.outcome second = JS.Resolved () →
  ∀ (A : Type) (k : Key.t A) (resource : option Uri),
    inspectSettingFromVSConfig k resource (JS.world second)
    = inspectSettingFromVSConfig k resource h.
Proof.
  intros Hnone first second Hfirst Hsecond A k resource.
  apply (storeUpdate_absent Key.language k target resource h); [done|].
  subst second first. unfold overrideLocal in *.
  rewrite (setSetting_resolved _ _ _ _ Hsecond), (setSetting_resolved _ _ _ _ Hfirst).
  apply storeUpdate_twice.
Qed.

End OverrideLocal.

(** ** Toggling the spell checker *)

Section Toggle.
Context `{!Collaborators}.

(** X8. At a folder-level target with a resource,
    [toggleEnableSpellChecker] writes the negation of the value of
    [enabled] that the resource sees (unset counting as false), and once
    the store has taken the write the resource sees that negation; a
    second toggle brings back the value seen at first. *)
Theorem toggleEnableSpellChecker_flips_at_folder (u : Uri) (h : Host) :
  let target := {| target := Target.WorkspaceFolder; uri := Some u |} in
  let seen := getSettingFromVSConfig Key.enabled (Some u) in
  let first := toggleEnableSpellChecker target h in
  let second := toggleEnableSpellChecker target (JS.world first) in
  updates (JS.world first)
  = updates h ++ [MkUpdate Key.enabled (Some (jsNot (seen h))) target]
  ∧ (JS.outcome first = JS.Resolved () →
     seen (JS.world first) = Some (jsNot (seen h))
     ∧ (JS.outcome second = JS.Resolved () →
        seen (JS.world second) = Some (negb (jsNot (seen h))))).
Proof.
  intros target seen first second.
  assert (∀ h0 h1 b, vsConfig h1 = storeUpdate Key.enabled (Some b) target (vsConfig h0) →
            seen h1 = Some b) as Hseen.
  { intros h0 h1 b Hstore. subst seen. unfold getSettingFromVSConfig,
      inspectSettingFromVSConfig. rewrite Hstore. cbn. by rewrite lookup_insert_eq. }
  split; [apply setSetting_updates|].
  intros Hfirst.
  assert (seen (JS.world first) = Some (jsNot (seen h))) as Hone.
  { apply (Hseen h). by apply setSetting_resolved. }
  split; [done|]. intros Hsecond.
  rewrite (Hseen (JS.world first) (JS.world second) (jsNot (seen (JS.world first)))).
  - rewrite Hone. by destruct (jsNot (seen h)).
  - by apply setSetting_resolved.
Qed.

(** X9. Toggling at [Global] while the workspace stores its own value of
    [enabled] writes the negation to the user settings, yet leaves the
    value seen in the workspace as it was: every further toggle writes the
    same negation again. *)
Theorem toggleEnableSpellChecker_masked_by_workspace (b : bool) (h : Host) :
  enabled (workspace (vsConfig h)) = Some b →
  let seen := getSettingFromVSConfig Key.enabled None in
  let first := toggleEnableSpellChecker Target.Global h in
  let second := toggleEnableSpellChecker Target.Global (JS.world first) in
  seen h = Some b
  ∧ seen (JS.world first) = Some b
  ∧ updates (JS.world second)
    = updates h ++ [MkUpdate Key.enabled (Some (negb b)) Target.Global;
                    MkUpdate Key.enabled (Some (negb b)) Target.Global].
Proof.
  intros Hb seen first second.
  assert (∀ h0, enabled (workspace (vsConfig h0)) = Some b → seen h0 = Some b) as Hseen.
  { intros h0 H0. subst seen. unfold getSettingFromVSConfig, inspectSettingFromVSConfig.
    cbn. by rewrite H0. }
  assert (enabled (workspace (vsConfig (JS.world first))) = Some b) as Hkept.
  { subst first. unfold toggleEnableSpellChecker, setSettingInVSConfig.
    by destruct (updateError h _). }
  split; [by apply Hseen|]. split; [by apply Hseen|].
  subst second. unfold toggleEnableSpellChecker at 1. rewrite setSetting_updates.
  cbn [isConfigTargetWithResource bareTarget uri].
  fold seen. rewrite (Hseen _ Hkept).
  subst first. unfold toggleEnableSpellChecker. rewrite setSetting_updates.
  cbn [isConfigTargetWithResource bareTarget uri]. fold seen. rewrite (Hseen _ Hb).
  rewrite <- app_assoc. by destruct b.
Qed.

End Toggle.

(** ** Language ids: the document's language, and calls in sequence *)

(** Two sorted lists without repetitions and with the same members are the
    same list. *)
Lemma sorted_NoDup_eq (l1 l2 : list string) :
  StronglySorted String.le l1 → StronglySorted String.le l2 →
  NoDup l1 → NoDup l2 → (∀ x, x ∈ l1 ↔ x ∈ l2) → l1 = l2.
Proof.
  intros Hs1 Hs2 Hn1 Hn2 Hmem.
  apply (StronglySorted_unique String.le); [done..|]. by apply NoDup_Permutation.
Qed.

(** Sorting a sorted list leaves it as it is. *)
Lemma sort_sorted_id l : StronglySorted String.le l → JS.sort l = l.
Proof.
  intros Hl. apply (StronglySorted_unique String.le); [apply sort_sorted|done|].
  apply merge_sort_Permutation.
Qed.

Lemma filter_all {A} (P : A → Prop) `{!∀ x, Decision (P x)} (l : list A) :
  (∀ x, x ∈ l → P x) → filter P l = l.
Proof.
  induction l as [|x l IH]; intros Hall; [done|].
  rewrite filter_cons_True by (apply Hall; left).
  f_equal. apply IH. intros y Hy. apply Hall. by right.
Qed.

Lemma storeUpdate_same {A} (k : Key.t A) v t c :
  storeUpdate k v t (storeUpdate k v t c) = storeUpdate k v t c.
Proof. apply storeUpdate_twice. Qed.

Section LanguageIdsInSequence.
Context `{!Collaborators}.

Lemma whenFilename_store name f h :
  updates (JS.world (whenFilename name f h)) = updates h
  ∧ vsConfig (JS.world (whenFilename name f h)) = vsConfig h.
Proof. by destruct name as [[]|]. Qed.

(** [enableLanguage] settles in the world its configuration write leaves. *)
Lemma enableLanguage_world target languageId h :
  JS.world (enableLanguage target languageId h)
  = JS.world (enableLanguageIdInConfig target languageId h).
Proof.
  unfold enableLanguage, JS.andThen.
  destruct (JS.outcome (enableLanguageIdInConfig _ _ _)); [|done]. cbn.
  destruct (_ && _); [|done].
  by destruct (findExistingSettingsFileLocation _ _).
Qed.

(** [disableLanguage] leaves the store and the log of updates as its
    configuration write leaves them. *)
Lemma disableLanguage_store target languageId h :
  updates (JS.world (disableLanguage target languageId h))
  = updates (JS.world (disableLanguageIdInConfig target languageId h))
  ∧ vsConfig (JS.world (disableLanguage target languageId h))
    = vsConfig (JS.world (disableLanguageIdInConfig target languageId h)).
Proof.
  unfold disableLanguage, JS.andThen.
  destruct (JS.outcome (disableLanguageIdInConfig _ _ _)); [|done]. cbn.
  destruct (_ && _); [|done].
  destruct (findExistingSettingsFileLocation _ _) as [location|] eqn:Hloc; [|done].
  destruct (findExisting_reads_only _ _ _
              (JS.world (disableLanguageIdInConfig target languageId h)) Hloc)
    as ((found & Hfound) & Hworld & _).
  unfold JS.thenValue, JS.andThen. rewrite Hfound, Hworld. cbn.
  destruct (JS.outcome (whenFilename _ _ _)); cbn; apply whenFilename_store.
Qed.

Lemma enableLanguageIdInConfig_world target languageId h :
  JS.world (enableLanguageIdInConfig target languageId h)
  = JS.world (setSettingInVSConfig Key.enabledLanguageIds
                (Some (JS.sort (Util.unique
                   (languageId :: getEnabledLanguagesFromConfig (configTargetToScope target) h))))
                target h).
Proof. by split_on_update. Qed.

Lemma disableLanguageIdInConfig_world target languageId h :
  JS.world (disableLanguageIdInConfig target languageId h)
  = JS.world (setSettingInVSConfig Key.enabledLanguageIds
                (Some (JS.sort (filter (λ a, a ≠ languageId)
                   (getEnabledLanguagesFromConfig (configTargetToScope target) h))))
                target h).
Proof. by split_on_update. Qed.

Lemma enableLanguageIdInConfig_outcome target languageId h langs :
  JS.outcome (enableLanguageIdInConfig target languageId h) = JS.Resolved langs →
  langs = JS.sort (Util.unique
            (languageId :: getEnabledLanguagesFromConfig (configTargetToScope target) h))
  ∧ vsConfig (JS.world (enableLanguageIdInConfig target languageId h))
    = storeUpdate Key.enabledLanguageIds (Some langs) target (vsConfig h).
Proof. split_on_update; [done|]. cbn. by intros [= <-]. Qed.

Lemma disableLanguageIdInConfig_outcome target languageId h langs :
  JS.outcome (disableLanguageIdInConfig target languageId h) = JS.Resolved langs →
  langs = JS.sort (filter (λ a, a ≠ languageId)
            (getEnabledLanguagesFromConfig (configTargetToScope target) h))
  ∧ vsConfig (JS.world (disableLanguageIdInConfig target languageId h))
    = storeUpdate Key.enabledLanguageIds (Some langs) target (vsConfig h).
Proof. split_on_update; [done|]. cbn. by intros [= <-]. Qed.

(** After a list is written at a target, it is the effective list there. *)
Lemma getEnabledLanguages_storeUpdate langs t h h' :
  vsConfig h' = storeUpdate Key.enabledLanguageIds (Some langs) t (vsConfig h) →
  getEnabledLanguagesFromConfig (configTargetToScope t) h' = langs.
Proof.
  intros Hstore. unfold getEnabledLanguagesFromConfig.
  by rewrite (getScoped_storeUpdate _ _ _ _ _ Hstore).
Qed.

(** X10. [enableCurrentLanguage] and [disableCurrentLanguage] resolve at
    once, with the world untouched, when there is no active editor, no
    document, or the document's language id is empty.  Otherwise they are
    [enableLanguage] and [disableLanguage] of the document's language id at
    the document's target, and issue exactly one configuration update,
    for that target: a list that holds the id, respectively lacks it. *)
Theorem currentLanguage_uses_the_document
    (editor : option VSCode.TextEditor) (h : Host) :
  let doc := editor ≫= VSCode.document in
  let id := default "" (VSCode.languageId <$> doc) in
  (id = "" →
     enableCurrentLanguage editor h = JS.resolve () h
     ∧ disableCurrentLanguage editor h = JS.resolve () h)
  ∧ (∀ d, doc = Some d → id ≠ "" →
       let target := createTargetForDocument Target.WorkspaceFolder d in
       enableCurrentLanguage editor h = enableLanguage target id h
       ∧ disableCurrentLanguage editor h = disableLanguage target id h
       ∧ (∃ langs,
            updates (JS.world (enableCurrentLanguage editor h))
            = updates h ++ [MkUpdate Key.enabledLanguageIds (Some langs) target]
            ∧ id ∈ langs)
       ∧ (∃ langs,
            updates (JS.world (disableCurrentLanguage editor h))
            = updates h ++ [MkUpdate Key.enabledLanguageIds (Some langs) target]
            ∧ id ∉ langs)).
Proof.
  intros doc id. split.
  - subst id doc. destruct editor as [[[[u id]|]]|]; cbn; try done. by intros ->.
  - intros d Hd Hid target.
    assert (enableCurrentLanguage editor h = enableLanguage target id h
            ∧ disableCurrentLanguage editor h = disableLanguage target id h)
      as [Henable Hdisable].
    { subst id doc target. destruct editor as [[[d'|]]|]; try done.
      cbn in Hd. injection Hd as ->. cbn in Hid |- *.
      by destruct (VSCode.languageId d). }
    rewrite Henable, Hdisable. split_and!; [done..| |].
    + eexists. split.
      * rewrite enableLanguage_world, enableLanguageIdInConfig_world.
        apply setSetting_updates.
      * rewrite sort_elem_of, unique_elem_of. set_solver.
    + eexists. split.
      * rewrite (proj1 (disableLanguage_store _ _ _)), disableLanguageIdInConfig_world.
        apply setSetting_updates.
      * rewrite sort_elem_of, list_elem_of_filter. naive_solver.
Qed.


(** X12. Enabling a language id twice at the same target writes the same
    list both times, and so does disabling it twice; the second write,
    when the store takes it, leaves the store as the first left it. *)
Theorem languageId_calls_idempotent (target : ConfigTarget) (languageId : string) (h : Host) :
  let again (call : ConfigTarget → string → Thenable (list string)) :=
    ∀ langs, JS.outcome (call target languageId h) = JS.Resolved langs →
      let first := JS.world (call target languageId h) in
      let second := call target languageId first in
      updates (JS.world second)
      = updates h ++ [MkUpdate Key.enabledLanguageIds (Some langs) target;
                      MkUpdate Key.enabledLanguageIds (Some langs) target]
      ∧ (∀ langs', JS.outcome second = JS.Resolved langs' →
           langs' = langs ∧ vsConfig (JS.world second) = vsConfig first) in
  again enableLanguageIdInConfig ∧ again disableLanguageIdInConfig.
Proof.
  split; intros langs Hfirst first second.
  - pose proof Hfirst as Hout.
    apply enableLanguageIdInConfig_outcome in Hout as [Hlangs Hstore].
    assert (JS.sort (Util.unique (languageId
              :: getEnabledLanguagesFromConfig (configTargetToScope target) first)) = langs)
      as Hsame.
    { rewrite (getEnabledLanguages_storeUpdate langs target h) by done.
      assert (languageId ∈ langs) as Hin
        by (rewrite Hlangs, sort_elem_of, unique_elem_of; set_solver).
      apply sorted_NoDup_eq.
      - apply sort_sorted.
      - rewrite Hlangs. apply sort_sorted.
      - apply sort_NoDup, unique_NoDup.
      - rewrite Hlangs. apply sort_NoDup, unique_NoDup.
      - intros x. rewrite sort_elem_of, unique_elem_of, elem_of_cons.
        naive_solver. }
    split.
    + subst second. rewrite enableLanguageIdInConfig_world, setSetting_updates, Hsame.
      subst first. rewrite enableLanguageIdInConfig_world, setSetting_updates, <- Hlangs.
      by rewrite <- app_assoc.
    + intros langs' Hsecond.
      apply enableLanguageIdInConfig_outcome in Hsecond as [Hlangs' Hstore'].
      fold first in Hlangs', Hstore'. rewrite Hsame in Hlangs'. subst langs'.
      split; [done|]. fold second in Hstore'. rewrite Hstore'. fold first in Hstore.
      rewrite Hstore. apply storeUpdate_same.
  - pose proof Hfirst as Hout.
    apply disableLanguageIdInConfig_outcome in Hout as [Hlangs Hstore].
    assert (JS.sort (filter (λ a, a ≠ languageId)
              (getEnabledLanguagesFromConfig (configTargetToScope target) first)) = langs)
      as Hsame.
    { rewrite (getEnabledLanguages_storeUpdate langs target h) by done.
      rewrite filter_all.
      - apply sort_sorted_id. rewrite Hlangs. apply sort_sorted.
      - intros x. rewrite Hlangs, sort_elem_of, list_elem_of_filter. naive_solver. }
    split.
    + subst second. rewrite disableLanguageIdInConfig_world, setSetting_updates, Hsame.
      subst first. rewrite disableLanguageIdInConfig_world, setSetting_updates, <- Hlangs.
      by rewrite <- app_assoc.
    + intros langs' Hsecond.
      apply disableLanguageIdInConfig_outcome in Hsecond as [Hlangs' Hstore'].
      fold first in Hlangs', Hstore'. rewrite Hsame in Hlangs'. subst langs'.
      split; [done|]. fold second in Hstore'. rewrite Hstore'. fold first in Hstore.
      rewrite Hstore. apply storeUpdate_same.
Qed.

End LanguageIdsInSequence.

(** ** Words added in sequence, and words joined by the caller *)

Section WordsInSequence.
Context `{!Collaborators}.

Lemma setSetting_folders {A} (k : Key.t A) v t h :
  workspaceFolders (JS.world (setSettingInVSConfig k v t h)) = workspaceFolders h.
Proof. by split_on_update. Qed.

(** X13. [addWordToSettings] never drops a word: the list it writes holds
    every word stored at the resolved scope and every entry of the split
    argument.  Called a second time with the same arguments it writes the
    same list to the same section and target, and the store, when it takes
    the second write, is as the first write left it. *)
Theorem addWordToSettings_keeps_words_and_repeats
    (target : ConfigTarget) (word : string) (h : Host) :
  let first := addWordToSettings target word h in
  let second := addWordToSettings target word (JS.world first) in
  let useGlobal := isGlobalTarget target || negb (hasWorkspaceLocation h) in
  let resolved : ConfigTarget := if useGlobal then Target.Global else target in
  let section := if useGlobal then Key.userWords else Key.words in
  let stored :=
    JS.orArray
      (inspectScopedSettingFromVSConfig section (configTargetToScope resolved) h) [] in
  ∃ written : list string,
    updates (JS.world first) = updates h ++ [MkUpdate section (Some written) resolved]
    ∧ (∀ w, w ∈ stored → w ∈ written)
    ∧ (∀ w, w ∈ JS.split " " word → w ∈ written)
    ∧ (JS.outcome first = JS.Resolved () →
       updates (JS.world second)
       = updates h ++ [MkUpdate section (Some written) resolved;
                       MkUpdate section (Some written) resolved]
       ∧ (JS.outcome second = JS.Resolved () →
          vsConfig (JS.world second) = vsConfig (JS.world first))).
Proof.
  intros first second useGlobal resolved section stored.
  set (written := Util.unique (JS.sort (stored ++ JS.split " " word))).
  assert (first = setSettingInVSConfig section (Some written) resolved h) as Hfirst
    by done.
  assert (∀ w, w ∈ written ↔ w ∈ stored ∨ w ∈ JS.split " " word) as Hmem.
  { intros w. subst written. by rewrite unique_elem_of, sort_elem_of, elem_of_app. }
  exists written. split_and!.
  - rewrite Hfirst. apply setSetting_updates.
  - intros w Hw. apply Hmem. by left.
  - intros w Hw. apply Hmem. by right.
  - intros Hok. rewrite Hfirst in Hok.
    pose proof (setSetting_resolved _ _ _ _ Hok) as Hstore.
    assert (hasWorkspaceLocation (JS.world first) = hasWorkspaceLocation h) as Hroot.
    { unfold hasWorkspaceLocation. rewrite Hfirst. by rewrite setSetting_folders. }
    assert (second = setSettingInVSConfig section (Some written) resolved (JS.world first))
      as Hsecond.
    { subst second. unfold addWordToSettings at 1. rewrite Hroot.
      fold useGlobal. fold resolved. fold section.
      rewrite Hfirst at 1.
      rewrite (inspectScoped_storeUpdate section (Some written) resolved h _ Hstore).
      cbn [JS.orArray]. f_equal. f_equal.
      apply sorted_NoDup_eq.
      - apply unique_sorted, sort_sorted.
      - apply unique_sorted, sort_sorted.
      - apply unique_NoDup.
      - apply unique_NoDup.
      - intros w. rewrite unique_elem_of, sort_elem_of, elem_of_app, !Hmem. naive_solver. }
    split.
    + rewrite Hsecond, setSetting_updates, Hfirst, setSetting_updates.
      by rewrite <- app_assoc.
    + intros Hok2. rewrite Hsecond in Hok2 |- *.
      rewrite (setSetting_resolved _ _ _ _ Hok2). rewrite Hfirst, Hstore.
      apply storeUpdate_same.
Qed.

(** X14. Words joined with single spaces, as [splitTextFn] of
    [extension.ts] joins them before the word is passed on, come apart
    again in [addWordToSettings]: for a non-empty list of words none of
    which contains a space, the list written holds exactly the stored
    words and those words.  For an empty list the joined text is the empty
    string, whose split is one empty entry, and the empty word is
    written. *)
Theorem addWordToSettings_joined_words
    (target : ConfigTarget) (words : list string) (h : Host) :
  let useGlobal := isGlobalTarget target || negb (hasWorkspaceLocation h) in
  let resolved : ConfigTarget := if useGlobal then Target.Global else target in
  let section := if useGlobal then Key.userWords else Key.words in
  let stored :=
    JS.orArray
      (inspectScopedSettingFromVSConfig section (configTargetToScope resolved) h) [] in
  ∃ written : list string,
    addWordToSettings target (JS.join " " words) h
    = setSettingInVSConfig section (Some written) resolved h
    ∧ (words ≠ [] → Forall (lacks " ") words →
       ∀ w, w ∈ written ↔ w ∈ stored ∨ w ∈ words)
    ∧ (words = [] → "" ∈ written).
Proof.
  intros useGlobal resolved section stored.
  exists (Util.unique (JS.sort (stored ++ JS.split " " (JS.join " " words)))).
  split_and!.
  - done.
  - intros Hne Hlacks w.
    rewrite unique_elem_of, sort_elem_of, elem_of_app.
    by rewrite (split_join " "%char words Hne Hlacks).
  - intros ->. rewrite unique_elem_of, sort_elem_of, elem_of_app. right.
    cbn. set_solver.
Qed.

End WordsInSequence.

(** ** The information viewer *)

Lemma lowerChar_idemp c : JS.lowerChar (JS.lowerChar c) = JS.lowerChar c.
Proof. destruct c as [[] [] [] [] [] [] [] []]; by vm_compute. Qed.

Lemma toLowerCase_idemp s : JS.toLowerCase (JS.toLowerCase s) = JS.toLowerCase s.
Proof. induction s as [|c s IH]; [done|]. cbn. by rewrite lowerChar_idemp, IH. Qed.

(** X15. The target [toTarget] builds is folder-level only for the scope
    name "folder", in any letter case, with a document at hand, and then
    carries that document's uri; every other target it builds carries no
    uri.  So no target of the viewer is folder-level without a resource.
    The booleans agree with the names "global" and "workspace", names are
    read without regard to letter case, and a name that is none of the
    three gives [Global]. *)
Theorem toTarget_folder_only_with_document
    (arg : InfoViewer.TargetArg) (docUri : option Uri) :
  let t := InfoViewer.toTarget arg docUri in
  (if isFolderLevelTarget t
   then (∃ s u, arg = InfoViewer.ScopeName s ∧ JS.toLowerCase s = "folder"
                ∧ docUri = Some u ∧ uri t = Some u)
   else uri t = None)
  ∧ InfoViewer.toTarget (InfoViewer.IsGlobal true) docUri
    = InfoViewer.toTarget (InfoViewer.ScopeName "global") docUri
  ∧ InfoViewer.toTarget (InfoViewer.IsGlobal false) docUri
    = InfoViewer.toTarget (InfoViewer.ScopeName "workspace") docUri
  ∧ (∀ s, InfoViewer.toTarget (InfoViewer.ScopeName (JS.toLowerCase s)) docUri
          = InfoViewer.toTarget (InfoViewer.ScopeName s) docUri)
  ∧ (∀ s, JS.toLowerCase s ≠ "folder" → JS.toLowerCase s ≠ "workspace" →
          InfoViewer.toTarget (InfoViewer.ScopeName s) docUri = Target.Global).
Proof.
  intros t. split_and!.
  - subst t. destruct arg as [[]|s]; cbn; [done..|].
    destruct (decide (JS.toLowerCase s = "folder")) as [Hs|Hs].
    + destruct docUri as [u|]; cbn; [|done]. by exists s, u.
    + by destruct (decide (JS.toLowerCase s = "workspace")).
  - done.
  - done.
  - intros s. unfold InfoViewer.toTarget. by rewrite toLowerCase_idemp.
  - intros s Hf Hw. unfold InfoViewer.toTarget.
    by rewrite !decide_False by done.
Qed.

(** The codes both lists are built from: the entries that are not blank. *)
Lemma elem_of_nonblank (locals : option (list string)) c :
  c ∈ filter (λ a, JS.trim a ≠ "") (JS.orArray locals []) ↔
  c ∈ JS.orArray locals [] ∧ JS.trim c ≠ "".
Proof. rewrite list_elem_of_filter. naive_solver. Qed.

Section ViewerLists.
Variable lookupCode : string → option InfoViewer.LangCountry.

(** X16. For any table of language codes, [localInfo] gives one entry per
    distinct non-blank code of [locals], ascending by code (codes are kept
    as given, not trimmed); an entry's name is the display name of its
    code, and neither its code nor its name can come from [defaults],
    which supplies the flags and, when it has them, the dictionaries.
    With no [locals] there is no entry. *)
Theorem localInfo_one_entry_per_code
    (locals : option (list string)) (defaults : InfoViewer.PartialLocalInfo) :
  let infos := InfoViewer.localInfo lookupCode locals defaults in
  let codes := InfoViewer.code <$> infos in
  StronglySorted String.le codes
  ∧ NoDup codes
  ∧ (∀ c, c ∈ codes ↔ c ∈ JS.orArray locals [] ∧ JS.trim c ≠ "")
  ∧ Forall (λ info,
      InfoViewer.name info = InfoViewer.displayName lookupCode (InfoViewer.code info)
      ∧ InfoViewer.dictionaries info = default [] (InfoViewer.dictionaries' defaults)
      ∧ InfoViewer.enabled info = InfoViewer.enabled' defaults
      ∧ InfoViewer.isInUserSettings info = InfoViewer.isInUserSettings' defaults
      ∧ InfoViewer.isInWorkspaceSettings info = InfoViewer.isInWorkspaceSettings' defaults
      ∧ InfoViewer.isInFolderSettings info = InfoViewer.isInFolderSettings' defaults) infos
  ∧ (locals = None → infos = []).
Proof.
  intros infos codes.
  assert (codes = JS.sort (JS.filterWith Util.uniqueFilter ∅
                     (filter (λ a, JS.trim a ≠ "") (JS.orArray locals [])))) as ->.
  { subst codes infos. unfold InfoViewer.localInfo.
    rewrite <- list_fmap_compose. apply list_fmap_id. }
  split_and!.
  - apply sort_sorted.
  - apply sort_NoDup, uniqueFilter_NoDup.
  - intros c. rewrite sort_elem_of, uniqueFilter_elem_of, elem_of_nonblank. set_solver.
  - subst infos. unfold InfoViewer.localInfo. apply Forall_fmap, Forall_forall. by intros.
  - by intros ->.
Qed.

(** X17. For any table of language codes, [friendlyLocals] gives the
    trimmed display names of the non-blank codes of [locals], ascending
    and each once; they are the trimmed names of the entries [localInfo]
    gives for the same [locals]. *)
Theorem friendlyLocals_sorted_distinct_names (locals : option (list string)) :
  let names := InfoViewer.friendlyLocals lookupCode locals in
  StronglySorted String.le names
  ∧ NoDup names
  ∧ (∀ n, n ∈ names ↔
       ∃ c, c ∈ JS.orArray locals [] ∧ JS.trim c ≠ ""
            ∧ n = JS.trim (InfoViewer.displayName lookupCode c))
  ∧ (∀ n, n ∈ names ↔
       ∃ info, info ∈ InfoViewer.localInfo lookupCode locals InfoViewer.noDefaults
               ∧ n = JS.trim (InfoViewer.name info))
  ∧ (∀ n, n ∈ names → JS.trim n = n).
Proof.
  intros names.
  assert (∀ n, n ∈ names ↔
            ∃ c, c ∈ JS.orArray locals [] ∧ JS.trim c ≠ ""
                 ∧ n = JS.trim (InfoViewer.displayName lookupCode c)) as Hmem.
  { intros n. subst names. unfold InfoViewer.friendlyLocals.
    rewrite sort_elem_of, uniqueFilter_elem_of, <- list_fmap_compose, list_elem_of_fmap.
    setoid_rewrite elem_of_nonblank. set_solver. }
  split_and!.
  - apply sort_sorted.
  - apply sort_NoDup, uniqueFilter_NoDup.
  - done.
  - intros n. rewrite Hmem. unfold InfoViewer.localInfo. split.
    + intros (c & Hc & Hblank & ->). eexists. split.
      * apply list_elem_of_fmap. exists c. split; [done|].
        rewrite sort_elem_of, uniqueFilter_elem_of, elem_of_nonblank. set_solver.
      * done.
    + intros (info & Hinfo & ->).
      apply list_elem_of_fmap in Hinfo as (c & -> & Hc).
      rewrite sort_elem_of, uniqueFilter_elem_of, elem_of_nonblank in Hc.
      exists c. naive_solver.
  - intros n (c & _ & _ & ->)%Hmem. apply trim_idemp.
Qed.

End ViewerLists.

(** ** The locales the viewer knows *)

Lemma mapGet_mapSet {V} (m : JS.Map V) k v k' :
  JS.mapGet (JS.mapSet m k v) k' = if decide (k = k') then Some v else JS.mapGet m k'.
Proof.
  induction m as [|[k0 v0] m IH]; cbn.
  - done.
  - destruct (decide (k0 = k)) as [->|Hne]; cbn.
    + by destruct (decide (k = k')).
    + rewrite IH. destruct (decide (k0 = k')) as [->|]; [|done].
      by rewrite decide_False by done.
Qed.

Lemma mapKeys_mapSet {V} (m : JS.Map V) k v :
  JS.mapKeys (JS.mapSet m k v)
  = if decide (k ∈ JS.mapKeys m) then JS.mapKeys m else JS.mapKeys m ++ [k].
Proof.
  unfold JS.mapKeys. induction m as [|[k0 v0] m IH]; cbn.
  - rewrite decide_False; [done|]. apply not_elem_of_nil.
  - destruct (decide (k0 = k)) as [->|Hne]; cbn.
    + rewrite decide_True; [done|]. left.
    + rewrite IH. destruct (decide (k ∈ fst <$> m)) as [Hin|Hout].
      * rewrite decide_True; [done|]. by right.
      * rewrite decide_False; [done|]. rewrite not_elem_of_cons. naive_solver.
Qed.

Lemma mapGet_mapForEach {V} (f : V → V) (m : JS.Map V) k :
  JS.mapGet (JS.mapForEach f m) k = f <$> JS.mapGet m k.
Proof.
  induction m as [|[k0 v0] m IH]; cbn; [done|].
  by destruct (decide (k0 = k)).
Qed.

Lemma mapKeys_mapForEach {V} (f : V → V) (m : JS.Map V) :
  JS.mapKeys (JS.mapForEach f m) = JS.mapKeys m.
Proof.
  unfold JS.mapKeys, JS.mapForEach. rewrite <- list_fmap_compose.
  by apply list_fmap_ext.
Qed.

Lemma mapValues_mapForEach {V} (f : V → V) (m : JS.Map V) :
  JS.mapValues (JS.mapForEach f m) = f <$> JS.mapValues m.
Proof.
  unfold JS.mapValues, JS.mapForEach. rewrite <- !list_fmap_compose.
  by apply list_fmap_ext.
Qed.

Lemma insertBy_Permutation {A} (compare : A → A → Z) x l :
  JS.insertBy compare x l ≡ₚ x :: l.
Proof.
  induction l as [|y l IH]; cbn; [done|].
  destruct (compare x y <=? 0)%Z; [done|]. rewrite IH. apply Permutation_swap.
Qed.

Lemma sortBy_Permutation {A} (compare : A → A → Z) l : JS.sortBy compare l ≡ₚ l.
Proof.
  induction l as [|x l IH]; cbn; [done|].
  by rewrite insertBy_Permutation, IH.
Qed.

Lemma mapSet_Forall {V} (P : string * V → Prop) (m : JS.Map V) k v :
  Forall P m → P (k, v) → Forall P (JS.mapSet m k v).
Proof.
  intros Hm Hkv. induction m as [|[k0 v0] m IH]; cbn.
  - by constructor.
  - apply Forall_cons in Hm as [H0 Hm].
    destruct (decide (k0 = k)); constructor; auto.
Qed.

Section Remembering.
Import InfoViewer.

(** The keys after a run of [remember]: those there before, in place, then
    the new codes, each once. *)
Lemma remember_keys (infos : list LocalInfo) (m : JS.Map LocalInfo) :
  ∃ new,
    JS.mapKeys (foldl remember m infos) = JS.mapKeys m ++ new
    ∧ NoDup new
    ∧ ∀ c, c ∈ new ↔ (c ∉ JS.mapKeys m) ∧ c ∈ (code <$> infos).
Proof.
  revert m. induction infos as [|info infos IH]; intros m; cbn [foldl].
  - exists []. rewrite app_nil_r. split; [done|]. split; [constructor|]. set_solver.
  - destruct (IH (remember m info)) as (new & Hkeys & Hnodup & Hnew).
    assert (JS.mapKeys (remember m info)
            = if decide (code info ∈ JS.mapKeys m) then JS.mapKeys m
              else JS.mapKeys m ++ [code info]) as Hstep by apply mapKeys_mapSet.
    rewrite Hstep in Hkeys. setoid_rewrite Hstep in Hnew. clear Hstep.
    destruct (decide (code info ∈ JS.mapKeys m)) as [Hin|Hout].
    + exists new. split; [done|]. split; [done|].
      intros c. rewrite Hnew, fmap_cons, elem_of_cons. naive_solver.
    + exists (code info :: new). rewrite <- app_assoc in Hkeys.
      split; [done|]. split.
      * constructor; [|done]. rewrite Hnew, elem_of_app. set_solver.
      * intros c. rewrite elem_of_cons, Hnew, fmap_cons.
        destruct (decide (c = code info)) as [->|]; set_solver.
Qed.

(** A flag after a run of [remember], when every flag met is [true] or
    absent: it is [true] exactly when an info of the key set it, or the map
    had it and no info of the key came by. *)
Lemma remember_flag (flag : LocalInfo → option bool) (infos : list LocalInfo)
    (m : JS.Map LocalInfo) (k : string) (v : LocalInfo) :
  (∀ old info, flag (spread old info)
               = match flag info with Some b => Some b | None => old ≫= flag end) →
  (∀ info, info ∈ infos → flag info = Some true ∨ flag info = None) →
  (∀ v0, JS.mapGet m k = Some v0 → flag v0 = Some true ∨ flag v0 = None) →
  JS.mapGet (foldl remember m infos) k = Some v →
  (flag v = Some true
   ∧ ((∃ info, info ∈ infos ∧ code info = k ∧ flag info = Some true)
      ∨ (∃ v0, JS.mapGet m k = Some v0 ∧ flag v0 = Some true)))
  ∨ (flag v = None
     ∧ (∀ info, info ∈ infos → code info = k → flag info = None)
     ∧ (∀ v0, JS.mapGet m k = Some v0 → flag v0 = None)).
Proof.
  intros Hspread. revert m.
  induction infos as [|info infos IH]; intros m Hinfos Hm Hget; cbn [foldl] in Hget.
  - destruct (Hm v Hget) as [Hv|Hv]; [left|right].
    + split; [done|]. right. by exists v.
    + split; [done|]. split; [by intros ? ?%not_elem_of_nil|].
      intros v0 Hv0. congruence.
  - assert (∀ v1, JS.mapGet (remember m info) k = Some v1 →
              flag v1 = Some true ∨ flag v1 = None) as Hm1.
    { intros v1. unfold remember. rewrite mapGet_mapSet.
      destruct (decide (code info = k)) as [Hk|Hk]; [|apply Hm].
      intros [= <-]. rewrite Hspread.
      destruct (Hinfos info ltac:(left)) as [-> | ->]; [by left|].
      rewrite Hk. destruct (JS.mapGet m k) as [v0|]; cbn; [by apply Hm | by right]. }
    assert (∀ i, i ∈ infos → flag i = Some true ∨ flag i = None) as Hrest
      by (intros i Hi; apply Hinfos; by right).
    destruct (IH (remember m info) Hrest Hm1 Hget)
      as [[Hv Hwhy] | (Hv & Hnone & Hmap)]; [left|right].
    + split; [done|]. destruct Hwhy as [(i & Hi & Hk & Hflag) | (v1 & Hv1 & Hflag)].
      * left. exists i. split; [by right|done].
      * unfold remember in Hv1. rewrite mapGet_mapSet in Hv1.
        destruct (decide (code info = k)) as [Hk|Hk].
        -- injection Hv1 as <-. rewrite Hspread in Hflag.
           destruct (flag info) as [b|] eqn:Hinfo.
           ++ left. exists info. split; [by left|]. split; [done|congruence].
           ++ right. rewrite Hk in Hflag.
              destruct (JS.mapGet m k) as [v0|]; [|done]. by exists v0.
        -- right. by exists v1.
    + split; [done|].
      assert (code info = k → flag info = None ∧ ∀ v0, JS.mapGet m k = Some v0 → flag v0 = None)
        as Hhere.
      { intros Hk.
        specialize (Hmap (spread (JS.mapGet m (code info)) info)).
        unfold remember in Hmap. rewrite mapGet_mapSet, decide_True in Hmap by done.
        specialize (Hmap eq_refl). rewrite Hspread in Hmap.
        destruct (flag info); [done|]. split; [done|].
        intros v0 Hv0. rewrite Hk, Hv0 in Hmap. done. }
      split.
      * intros i [->|Hi]%elem_of_cons Hk; [exact (proj1 (Hhere Hk)) | by apply Hnone].
      * intros v0 Hv0. destruct (decide (code info = k)) as [Hk|Hk].
        -- by apply (proj2 (Hhere Hk)).
        -- apply Hmap. unfold remember. by rewrite mapGet_mapSet, decide_False.
Qed.

(** [remember] files every info under its own code. *)
Lemma remember_codes (infos : list LocalInfo) (m : JS.Map LocalInfo) :
  Forall (λ entry, code (snd entry) = fst entry) m →
  Forall (λ entry, code (snd entry) = fst entry) (foldl remember m infos).
Proof.
  revert m. induction infos as [|info infos IH]; intros m Hm; cbn [foldl]; [done|].
  apply IH. unfold remember. by apply mapSet_Forall.
Qed.

End Remembering.

Section KnownLocals.
Import InfoViewer.
Variable lookupCode : string → option LangCountry.

(** What [localInfo] holds: one info per listed code, built from the code
    and the defaults. *)
Lemma localInfo_elem (locals : option (list string)) (defaults : PartialLocalInfo) info :
  info ∈ localInfo lookupCode locals defaults ↔
  code info ∈ filter (λ a, JS.trim a ≠ "") (JS.orArray locals [])
  ∧ info = {| code := code info;
              name := displayName lookupCode (code info);
              dictionaries := default [] (dictionaries' defaults);
              enabled := enabled' defaults;
              isInUserSettings := isInUserSettings' defaults;
              isInWorkspaceSettings := isInWorkspaceSettings' defaults;
              isInFolderSettings := isInFolderSettings' defaults |}.
Proof.
  unfold localInfo. rewrite list_elem_of_fmap. split.
  - intros (c & -> & Hc). cbn. split; [|done].
    rewrite sort_elem_of, uniqueFilter_elem_of in Hc. by destruct Hc.
  - intros [Hc Hinfo]. exists (code info). split; [done|].
    rewrite sort_elem_of, uniqueFilter_elem_of. set_solver.
Qed.

Lemma localInfo_nil (locals : option (list string)) (defaults : PartialLocalInfo) :
  localInfo lookupCode locals defaults = [] ↔
  filter (λ a, JS.trim a ≠ "") (JS.orArray locals []) = [].
Proof.
  split; intros Hnil.
  - apply elem_of_nil_inv. intros c Hc.
    assert ({| code := c;
               name := displayName lookupCode c;
               dictionaries := default [] (dictionaries' defaults);
               enabled := enabled' defaults;
               isInUserSettings := isInUserSettings' defaults;
               isInWorkspaceSettings := isInWorkspaceSettings' defaults;
               isInFolderSettings := isInFolderSettings' defaults |}
            ∈ localInfo lookupCode locals defaults) as Hin
      by (by apply localInfo_elem).
    rewrite Hnil in Hin. by apply not_elem_of_nil in Hin.
  - unfold localInfo. by rewrite Hnil.
Qed.

Lemma localInfo_code_elem (locals : option (list string)) (defaults : PartialLocalInfo) c :
  c ∈ (code <$> localInfo lookupCode locals defaults) ↔
  c ∈ JS.orArray locals [] ∧ JS.trim c ≠ "".
Proof.
  unfold localInfo. rewrite <- list_fmap_compose, list_fmap_id.
  rewrite sort_elem_of, uniqueFilter_elem_of, elem_of_nonblank. set_solver.
Qed.

(** The flag of a key after the infos of several calls of [localInfo] have
    been remembered over a map that had the flag nowhere. *)
Lemma remember_flag_current (flag : LocalInfo → option bool)
    (flag' : PartialLocalInfo → option bool)
    (sources : list (option (list string) * PartialLocalInfo))
    (m : JS.Map LocalInfo) (k : string) (v : LocalInfo) :
  (∀ old info, flag (spread old info)
               = match flag info with Some b => Some b | None => old ≫= flag end) →
  (∀ locals defaults info,
     info ∈ localInfo lookupCode locals defaults → flag info = flag' defaults) →
  Forall (λ source, flag' (snd source) = Some true ∨ flag' (snd source) = None) sources →
  (∀ v0, JS.mapGet m k = Some v0 → flag v0 = None) →
  JS.mapGet
    (foldl remember m
       (sources ≫= λ source, localInfo lookupCode (fst source) (snd source))) k
  = Some v →
  (flag v = Some true ∨ flag v = None)
  ∧ (flag v = Some true ↔
     ∃ source, source ∈ sources ∧ flag' (snd source) = Some true
               ∧ k ∈ filter (λ a, JS.trim a ≠ "") (JS.orArray (fst source) [])).
Proof.
  intros Hspread Hflag Hsources Hm Hget.
  rewrite Forall_forall in Hsources.
  destruct (remember_flag flag
              (sources ≫= λ source, localInfo lookupCode (fst source) (snd source))
              m k v Hspread) as [[Hv Hwhy] | (Hv & Hnone & _)];
    [| |done| |].
  - intros info (source & Hinfo & Hsource)%list_elem_of_bind.
    rewrite (Hflag _ _ _ Hinfo). by apply Hsources.
  - intros v0 Hv0. right. by apply Hm.
  - split; [by left|]. split; [|done]. intros _.
    destruct Hwhy as [(info & Hin & Hk & Hset) | (v0 & Hv0 & Hset)].
    + apply list_elem_of_bind in Hin as (source & Hinfo & Hsource).
      exists source. split; [done|]. split.
      * by rewrite <- (Hflag _ _ _ Hinfo).
      * apply localInfo_elem in Hinfo as [Hcode _]. by rewrite <- Hk.
    + rewrite (Hm v0 Hv0) in Hset. done.
  - split; [by right|]. rewrite Hv. split; [done|].
    intros (source & Hsource & Hset & Hk).
    set (info := {| code := k;
                    name := displayName lookupCode k;
                    dictionaries := default [] (dictionaries' (snd source));
                    enabled := enabled' (snd source);
                    isInUserSettings := isInUserSettings' (snd source);
                    isInWorkspaceSettings := isInWorkspaceSettings' (snd source);
                    isInFolderSettings := isInFolderSettings' (snd source) |}).
    assert (info ∈ localInfo lookupCode (fst source) (snd source)) as Hinfo
      by (by apply localInfo_elem).
    assert (flag info = None) as Habsent.
    { apply Hnone; [|done]. apply list_elem_of_bind. by exists source. }
    rewrite (Hflag _ _ _ Hinfo) in Habsent. congruence.
Qed.

Variable ServerSettings : Type.
Variable extractDictionariesByLocal : option ServerSettings → string → option (list string).
Variable extractLocals : option ServerSettings → option (list string).
Variable extractLanguage : option ServerSettings → option (list string).
Variable normalizeToLocals : option string → option (list string).
Variable localeCompare : string → string → Z.

(** X18. [composeLocalInfo] never forgets a locale: the keys of
    [knownLocals] keep their places, and the codes listed now (by the
    server's locals or language, or by the user, workspace or folder value
    of [language]) that were not known are added behind them, each once.
    Keys stay distinct, every info stays filed under its own code, and the
    array returned holds exactly the values of the map. *)
Theorem composeLocalInfo_known_locals_grow
    (settingsFromServer : option ServerSettings) (docUri : option Uri) (h : Host)
    (knownLocals : JS.Map LocalInfo) :
  let fromConfig := inspectSettingFromVSConfig Key.language docUri h in
  let listed (locals : option (list string)) (c : string) :=
    c ∈ JS.orArray locals [] ∧ JS.trim c ≠ "" in
  let current (c : string) :=
    listed (extractLocals settingsFromServer) c
    ∨ listed (extractLanguage settingsFromServer) c
    ∨ listed (normalizeToLocals (globalValue fromConfig)) c
    ∨ listed (normalizeToLocals (workspaceValue fromConfig)) c
    ∨ listed (normalizeToLocals (workspaceFolderValue fromConfig)) c in
  let composed :=
    composeLocalInfo lookupCode ServerSettings extractDictionariesByLocal extractLocals
      extractLanguage normalizeToLocals localeCompare settingsFromServer docUri h
      knownLocals in
  (∃ new, JS.mapKeys (snd composed) = JS.mapKeys knownLocals ++ new
          ∧ NoDup new
          ∧ ∀ c, c ∈ new ↔ (c ∉ JS.mapKeys knownLocals) ∧ current c)
  ∧ (NoDup (JS.mapKeys knownLocals) → NoDup (JS.mapKeys (snd composed)))
  ∧ (Forall (λ entry, code (snd entry) = fst entry) knownLocals →
     Forall (λ entry, code (snd entry) = fst entry) (snd composed))
  ∧ fst composed ≡ₚ JS.mapValues (snd composed).
Proof.
  intros fromConfig listed current composed.
  subst composed. unfold composeLocalInfo. fold fromConfig. cbn [fst snd].
  set (workspaceLocals := localInfo lookupCode (normalizeToLocals (workspaceValue fromConfig)) _).
  set (folderLocals := localInfo lookupCode (normalizeToLocals (workspaceFolderValue fromConfig)) _).
  set (infos := localInfo lookupCode (extractLocals settingsFromServer) _ ++ _).
  set (known1 := foldl remember (JS.mapForEach resetKnownLocal knownLocals) infos).
  set (known2 := match workspaceLocals with [] => known1 | _ :: _ => _ end).
  set (known3 := match folderLocals with [] => known2 | _ :: _ => _ end).
  assert (JS.mapKeys known3 = JS.mapKeys known1) as Hkeys3.
  { subst known3 known2.
    destruct folderLocals, workspaceLocals; by rewrite ?mapKeys_mapForEach. }
  assert (∃ new, JS.mapKeys known3 = JS.mapKeys knownLocals ++ new
                 ∧ NoDup new
                 ∧ ∀ c, c ∈ new ↔ (c ∉ JS.mapKeys knownLocals) ∧ current c)
    as (new & Hkeys & Hnodup & Hnew).
  { destruct (remember_keys infos (JS.mapForEach resetKnownLocal knownLocals))
      as (new & Hkeys & Hnodup & Hnew).
    fold known1 in Hkeys. rewrite mapKeys_mapForEach in Hkeys, Hnew.
    exists new. split; [by rewrite Hkeys3|]. split; [done|].
    intros c. rewrite Hnew.
    assert (c ∈ (code <$> infos) ↔ current c) as ->; [|done].
    subst infos current listed workspaceLocals folderLocals. cbv beta.
    by rewrite !fmap_app, !elem_of_app, !localInfo_code_elem. }
  split_and!.
  - exists new. by rewrite mapKeys_mapForEach.
  - intros Hdistinct. rewrite mapKeys_mapForEach, Hkeys.
    apply NoDup_app. split; [done|]. split; [|done].
    intros c Hc Hc'. apply Hnew in Hc'. tauto.
  - intros Hfiled.
    assert (Forall (λ entry, code (snd entry) = fst entry) known1) as H1.
    { apply remember_codes. unfold JS.mapForEach. apply Forall_fmap.
      eapply Forall_impl; [exact Hfiled|]. by intros []. }
    assert (∀ f m, (∀ info, code (f info) = code info) →
              Forall (λ entry : string * LocalInfo, code (snd entry) = fst entry) m →
              Forall (λ entry, code (snd entry) = fst entry) (JS.mapForEach f m)) as Hsame.
    { intros f m Hf Hm. unfold JS.mapForEach. apply Forall_fmap.
      eapply Forall_impl; [exact Hm|]. intros [k v]; cbn. by rewrite Hf. }
    apply Hsame; [done|]. subst known3 known2.
    destruct folderLocals, workspaceLocals; repeat (apply Hsame; [done|]); done.
  - rewrite mapValues_mapForEach. by rewrite sortBy_Permutation.
Qed.

(** X19. After [composeLocalInfo], the flags of every known locale say
    what is listed now and nothing of an earlier call: [enabled] is [true]
    when the server's language lists the code and absent otherwise,
    [isInUserSettings] likewise for the user value of [language];
    [isInWorkspaceSettings] and [isInFolderSettings] are absent for every
    locale when the workspace, respectively folder, value lists no code,
    and otherwise say for each locale whether the value lists it.  The
    dictionaries are those the server has for the code, sorted. *)
Theorem composeLocalInfo_flags_are_current
    (settingsFromServer : option ServerSettings) (docUri : option Uri) (h : Host)
    (knownLocals : JS.Map LocalInfo) (k : string) (v : LocalInfo) :
  let fromConfig := inspectSettingFromVSConfig Key.language docUri h in
  let codes (locals : option (list string)) :=
    filter (λ a, JS.trim a ≠ "") (JS.orArray locals []) in
  let listed (locals : option (list string)) := bool_decide (k ∈ codes locals) in
  let flag (locals : option (list string)) := if listed locals then Some true else None in
  let forced (locals : option (list string)) :=
    match codes locals with
    | [] => None
    | _ :: _ => Some (listed locals)
    end in
  JS.mapGet
    (snd (composeLocalInfo lookupCode ServerSettings extractDictionariesByLocal
            extractLocals extractLanguage normalizeToLocals localeCompare
            settingsFromServer docUri h knownLocals)) k
  = Some v →
  enabled v = flag (extractLanguage settingsFromServer)
  ∧ isInUserSettings v = flag (normalizeToLocals (globalValue fromConfig))
  ∧ isInWorkspaceSettings v = forced (normalizeToLocals (workspaceValue fromConfig))
  ∧ isInFolderSettings v = forced (normalizeToLocals (workspaceFolderValue fromConfig))
  ∧ dictionaries v
    = JS.sort (JS.orArray (extractDictionariesByLocal settingsFromServer (code v)) []).
Proof.
  intros fromConfig codes listed flag forced.
  unfold composeLocalInfo. fold fromConfig. cbn [snd].
  set (forServer := {| code' := None; name' := None; dictionaries' := None;
                       enabled' := Some true; isInUserSettings' := None;
                       isInWorkspaceSettings' := None; isInFolderSettings' := None |}).
  set (forUser := {| code' := None; name' := None; dictionaries' := None;
                     enabled' := None; isInUserSettings' := Some true;
                     isInWorkspaceSettings' := None; isInFolderSettings' := None |}).
  set (forWorkspace := {| code' := None; name' := None; dictionaries' := None;
                          enabled' := None; isInUserSettings' := None;
                          isInWorkspaceSettings' := Some true;
                          isInFolderSettings' := None |}).
  set (forFolder := {| code' := None; name' := None; dictionaries' := None;
                       enabled' := None; isInUserSettings' := None;
                       isInWorkspaceSettings' := None;
                       isInFolderSettings' := Some true |}).
  set (sources := [ (extractLocals settingsFromServer, noDefaults);
                    (extractLanguage settingsFromServer, forServer);
                    (normalizeToLocals (globalValue fromConfig), forUser);
                    (normalizeToLocals (workspaceValue fromConfig), forWorkspace);
                    (normalizeToLocals (workspaceFolderValue fromConfig), forFolder) ]).
  set (known0 := JS.mapForEach resetKnownLocal knownLocals).
  assert (localInfo lookupCode (extractLocals settingsFromServer) noDefaults
          ++ localInfo lookupCode (extractLanguage settingsFromServer) forServer
          ++ localInfo lookupCode (normalizeToLocals (globalValue fromConfig)) forUser
          ++ localInfo lookupCode (normalizeToLocals (workspaceValue fromConfig)) forWorkspace
          ++ localInfo lookupCode (normalizeToLocals (workspaceFolderValue fromConfig))
               forFolder
          = sources ≫= λ source, localInfo lookupCode (fst source) (snd source)) as ->.
  { cbn. by rewrite app_nil_r. }
  set (known1 := foldl remember known0 _).
  assert (∀ (get : LocalInfo → option bool) (get' : PartialLocalInfo → option bool)
            locals defaults v1,
            (∀ old info, get (spread old info)
                         = match get info with Some b => Some b | None => old ≫= get end) →
            (∀ info, get (resetKnownLocal info) = None) →
            (∀ info l d, info ∈ localInfo lookupCode l d → get info = get' d) →
            (∀ source, source ∈ sources →
               (get' (snd source) = Some true ∧ fst source = locals)
               ∨ get' (snd source) = None) →
            (locals, defaults) ∈ sources → get' defaults = Some true →
            JS.mapGet known1 k = Some v1 →
            get v1 = flag locals) as Hcurrent.
  { intros get get' locals defaults v1 Hspread Hreset Hlocal Hsources Hsource Hset Hv1.
    destruct (remember_flag_current get get' sources known0 k v1) as [Hcases Htrue];
      try done.
    - intros l d info. apply Hlocal.
    - apply Forall_forall. intros source Hin.
      destruct (Hsources source Hin) as [[Hyes _]|Hno]; [by left | by right].
    - intros v0. subst known0. rewrite mapGet_mapForEach.
      intros (v00 & _ & ->)%fmap_Some. apply Hreset.
    - subst flag listed. cbv beta. case_bool_decide as Hk.
      + apply Htrue. by exists (locals, defaults).
      + destruct Hcases as [Hyes|Hno]; [|done].
        apply Htrue in Hyes as (source & Hin & Hyes & Hlisted).
        destruct (Hsources source Hin) as [[_ Hfst]|Hno]; [|congruence].
        rewrite Hfst in Hlisted. done. }
  assert (∀ source, source ∈ sources →
            source = (extractLocals settingsFromServer, noDefaults)
            ∨ source = (extractLanguage settingsFromServer, forServer)
            ∨ source = (normalizeToLocals (globalValue fromConfig), forUser)
            ∨ source = (normalizeToLocals (workspaceValue fromConfig), forWorkspace)
            ∨ source = (normalizeToLocals (workspaceFolderValue fromConfig), forFolder))
    as Hfive.
  { intros source. subst sources. rewrite !elem_of_cons, elem_of_nil. tauto. }
  assert (∀ info l d, info ∈ localInfo lookupCode l d →
            enabled info = enabled' d
            ∧ isInUserSettings info = isInUserSettings' d
            ∧ isInWorkspaceSettings info = isInWorkspaceSettings' d
            ∧ isInFolderSettings info = isInFolderSettings' d) as Hlocal.
  { intros info l d [_ ->]%localInfo_elem. done. }
  rewrite mapGet_mapForEach.
  intros (v3 & Hv3 & ->)%fmap_Some. cbn [enabled isInUserSettings isInWorkspaceSettings
    isInFolderSettings dictionaries code augmentLocal].
  assert (∃ v1, JS.mapGet known1 k = Some v1
                ∧ enabled v3 = enabled v1
                ∧ isInUserSettings v3 = isInUserSettings v1
                ∧ isInWorkspaceSettings v3
                  = match codes (normalizeToLocals (workspaceValue fromConfig)) with
                    | [] => isInWorkspaceSettings v1
                    | _ :: _ => Some (default false (isInWorkspaceSettings v1))
                    end
                ∧ isInFolderSettings v3
                  = match codes (normalizeToLocals (workspaceFolderValue fromConfig)) with
                    | [] => isInFolderSettings v1
                    | _ :: _ => Some (default false (isInFolderSettings v1))
                    end)
    as (v1 & Hv1 & Henabled & Huser & Hworkspace & Hfolder).
  { pose proof (localInfo_nil (normalizeToLocals (workspaceValue fromConfig))
                  forWorkspace) as Hw.
    pose proof (localInfo_nil (normalizeToLocals (workspaceFolderValue fromConfig))
                  forFolder) as Hf.
    fold (codes (normalizeToLocals (workspaceValue fromConfig))) in Hw.
    fold (codes (normalizeToLocals (workspaceFolderValue fromConfig))) in Hf.
    destruct (localInfo lookupCode (normalizeToLocals (workspaceValue fromConfig))
                forWorkspace) as [|w ws];
      destruct (localInfo lookupCode (normalizeToLocals (workspaceFolderValue fromConfig))
                  forFolder) as [|f fs];
      destruct (codes (normalizeToLocals (workspaceValue fromConfig))) as [|cw cws];
      destruct (codes (normalizeToLocals (workspaceFolderValue fromConfig))) as [|cf cfs];
      try (by destruct Hw as [Hw Hw']; first [specialize (Hw eq_refl) | specialize (Hw' eq_refl)]);
      try (by destruct Hf as [Hf Hf']; first [specialize (Hf eq_refl) | specialize (Hf' eq_refl)]);
      rewrite ?mapGet_mapForEach in Hv3;
      repeat (apply fmap_Some in Hv3 as (? & Hv3 & ->));
      eexists; (split; [exact Hv3|done]). }
  rewrite Henabled, Huser, Hworkspace, Hfolder.
  rewrite (Hcurrent enabled enabled' (extractLanguage settingsFromServer) forServer v1);
    [|done|done|intros info l d Hin; apply (Hlocal info l d Hin)| |set_solver|done|done].
  2: { intros source Hin. destruct (Hfive source Hin) as [->|[->|[->|[->| ->]]]]; cbn; auto. }
  rewrite (Hcurrent isInUserSettings isInUserSettings'
             (normalizeToLocals (globalValue fromConfig)) forUser v1);
    [|done|done|intros info l d Hin; apply (Hlocal info l d Hin)| |set_solver|done|done].
  2: { intros source Hin. destruct (Hfive source Hin) as [->|[->|[->|[->| ->]]]]; cbn; auto. }
  rewrite (Hcurrent isInWorkspaceSettings isInWorkspaceSettings'
             (normalizeToLocals (workspaceValue fromConfig)) forWorkspace v1);
    [|done|done|intros info l d Hin; apply (Hlocal info l d Hin)| |set_solver|done|done].
  2: { intros source Hin. destruct (Hfive source Hin) as [->|[->|[->|[->| ->]]]]; cbn; auto. }
  rewrite (Hcurrent isInFolderSettings isInFolderSettings'
             (normalizeToLocals (workspaceFolderValue fromConfig)) forFolder v1);
    [|done|done|intros info l d Hin; apply (Hlocal info l d Hin)| |set_solver|done|done].
  2: { intros source Hin. destruct (Hfive source Hin) as [->|[->|[->|[->| ->]]]]; cbn; auto. }
  split_and!; try done.
  - subst forced flag listed. cbv beta.
    destruct (codes (normalizeToLocals (workspaceValue fromConfig))) as [|c cs] eqn:Hcodes.
    + rewrite bool_decide_eq_false_2; [done|]. apply not_elem_of_nil.
    + by case_bool_decide.
  - subst forced flag listed. cbv beta.
    destruct (codes (normalizeToLocals (workspaceFolderValue fromConfig))) as [|c cs]
      eqn:Hcodes.
    + rewrite bool_decide_eq_false_2; [done|]. apply not_elem_of_nil.
    + by case_bool_decide.
Qed.


End KnownLocals.

(** ** A locale enabled and then disabled *)

Section LocalesInSequence.
Context `{!Collaborators}.

(** X20. [enableLocal] followed by [disableLocal] of the same locale
    string at the same target, both writes taken by the store, where
    [normalizeLocal] leaves the locale string and the value [enableLocal]
    wrote as they are: the value stored at the target's scope in the end is
    made of the entries [enableLocal] wrote other than the locale string,
    and is [undefined] when none is left.  Starting from a [language] that
    is unset or empty, a single trimmed code enabled and then disabled
    leaves [language] unset at the target: the empty entry [enableLocal]
    wrote does not survive [disableLocal]. *)
Theorem enableLocal_then_disableLocal (target : ConfigTarget) (local : string) (h : Host) :
  let scope := configTargetToScope target in
  let current := JS.orString (getScopedSettingFromVSConfig Key.language scope h) "" in
  let entries :=
    JS.filterWith Util.uniqueFilter ∅
      (JS.trim <$> (JS.split "," current ++ JS.split "," local)) in
  let first := enableLocal target local h in
  let second := disableLocal target local (JS.world first) in
  normalizeLocal local = local →
  normalizeLocal (JS.join "," entries) = JS.join "," entries →
  JS.outcome first = JS.Resolved () →
  JS.outcome second = JS.Resolved () →
  inspectScopedSettingFromVSConfig Key.language scope (JS.world first)
  = Some (JS.join "," entries)
  ∧ inspectScopedSettingFromVSConfig Key.language scope (JS.world second)
    = JS.orUndefined (JS.join "," (filter (λ entry, entry ≠ local) entries))
  ∧ (current = "" → lacks "," local → JS.trim local = local →
     inspectScopedSettingFromVSConfig Key.language scope (JS.world second) = None).
Proof.
  intros scope current entries first second Hlocal Hwritten Hfirst Hsecond.
  assert (first = setSettingInVSConfig Key.language (Some (JS.join "," entries)) target h)
    as Hfirst' by done.
  assert (inspectScopedSettingFromVSConfig Key.language scope (JS.world first)
          = Some (JS.join "," entries)) as Hstored.
  { apply (inspectScoped_storeUpdate Key.language _ target h).
    rewrite Hfirst' in Hfirst |- *. by apply setSetting_resolved. }
  destruct (enabled_entries_shape current local) as (Hnil & _ & Hlacks & _).
  fold entries in Hnil, Hlacks.
  assert (second
          = setSettingInVSConfig Key.language
              (JS.orUndefined (JS.join "," (filter (λ entry, entry ≠ local) entries)))
              target (JS.world first)) as Hsecond'.
  { subst second. unfold disableLocal. fold scope. rewrite Hstored, Hlocal.
    rewrite orString_Some, Hwritten. by rewrite split_join. }
  assert (inspectScopedSettingFromVSConfig Key.language scope (JS.world second)
          = JS.orUndefined (JS.join "," (filter (λ entry, entry ≠ local) entries)))
    as Hend.
  { apply (inspectScoped_storeUpdate Key.language _ target (JS.world first)).
    rewrite Hsecond' in Hsecond |- *. by apply setSetting_resolved. }
  split; [done|]. split; [done|].
  intros Hunset Hcode Htrim. rewrite Hend. subst entries. rewrite Hunset.
  rewrite (split_lacks_id _ _ Hcode). cbn. rewrite Htrim.
  rewrite bool_decide_true by set_solver.
  destruct (decide (local = "")) as [->|Hne].
  - rewrite bool_decide_false by set_solver. cbn. by rewrite decide_False by naive_solver.
  - rewrite bool_decide_true by set_solver.
    rewrite filter_cons_True by (intros Heq; by apply Hne).
    by rewrite filter_cons_False by naive_solver.
Qed.

End LocalesInSequence.

(** ** Which settings file is chosen for a document *)

Lemma string_length_app (a b : string) :
  String.length (a +:+ b) = (String.length a + String.length b)%nat.
Proof.
  induction a as [|c a IH]; [done|].
  change (S (String.length (a +:+ b)) = S (String.length a + String.length b)).
  by rewrite IH.
Qed.

Lemma toLowerCase_length s : String.length (JS.toLowerCase s) = String.length s.
Proof. induction s as [|c s IH]; [done|]. cbn. by rewrite IH. Qed.

Lemma StronglySorted_filter {A} (R : relation A) (P : A → Prop) `{!∀ x, Decision (P x)}
    (l : list A) :
  StronglySorted R l → StronglySorted R (filter P l).
Proof.
  induction 1 as [|x l Hl IH Hx]; [constructor|].
  destruct (decide (P x)).
  - rewrite filter_cons_True by done. constructor; [done|].
    rewrite Forall_forall in Hx |- *. intros y [_ Hy]%list_elem_of_filter. by apply Hx.
  - by rewrite filter_cons_False.
Qed.

(** Of a list already in order of length, the stable sort by length keeps
    the head. *)
Lemma sortByLength_head_ordered (l : list string) :
  StronglySorted (λ p q, String.length p ≤ String.length q)%nat l →
  head (JS.sortByLength l) = head l.
Proof.
  intros Hsorted. pose proof (sortByLength_head l) as Hhead.
  destruct (head (JS.sortByLength l)) as [p|]; [|by rewrite Hhead].
  destruct Hhead as (before & after & -> & Hbefore & _).
  destruct before as [|q before]; [done|].
  apply Forall_cons in Hbefore as [Hq _].
  assert (String.length q ≤ String.length p)%nat; [|lia].
  apply (StronglySorted_app_1_elem_of _ [q] (before ++ p :: after) q p Hsorted);
    set_solver.
Qed.

(** *** [path.join] of a root and file names *)

Lemma split_app_any sep a b :
  JS.split sep (a +:+ String sep b) = JS.split sep a ++ JS.split sep b.
Proof.
  induction a as [|c a IH].
  - change (JS.split sep (String sep b) = [""] ++ JS.split sep b).
    cbn [JS.split]. by rewrite Ascii.eqb_refl.
  - change (JS.split sep (String c (a +:+ String sep b))
            = JS.split sep (String c a) ++ JS.split sep b).
    cbn [JS.split]. rewrite IH.
    destruct (Ascii.eqb c sep); [done|].
    pose proof (split_not_nil sep a). by destruct (JS.split sep a).
Qed.

Lemma join_snoc sep l x :
  JS.join sep (l ++ [x])
  = match l with
    | [] => x
    | _ :: _ => JS.join sep l +:+ sep +:+ x
    end.
Proof.
  induction l as [|y l IH]; [done|].
  destruct l as [|z l]; [done|].
  cbn [app] in IH |- *. rewrite !join_cons, IH.
  by rewrite !string_app_assoc.
Qed.

Lemma startsWithSlash_app a b : a ≠ "" → JS.startsWithSlash (a +:+ b) = JS.startsWithSlash a.
Proof. by destruct a. Qed.

Lemma endsWithSlash_app a b : b ≠ "" → JS.endsWithSlash (a +:+ b) = JS.endsWithSlash b.
Proof.
  intros Hb. induction a as [|c a IH]; [done|].
  change (JS.endsWithSlash (String c (a +:+ b)) = JS.endsWithSlash b).
  cbn [JS.endsWithSlash]. rewrite IH.
  destruct (a +:+ b) eqn:Hab; [|done].
  by destruct a, b.
Qed.

Lemma lacks_startsWithSlash s : lacks "/" s → JS.startsWithSlash s = false.
Proof.
  destruct s as [|c s]; [done|]. intros [Hc _]. cbn.
  by destruct (Ascii.eqb_spec c "/").
Qed.

Lemma lacks_endsWithSlash s : lacks "/" s → JS.endsWithSlash s = false.
Proof.
  induction s as [|c s IH]; [done|]. intros [Hc Hs]. cbn [JS.endsWithSlash].
  destruct s; [|by apply IH]. by destruct (Ascii.eqb_spec c "/").
Qed.

(** A file name is kept as a segment of its own. *)
Lemma normalizeSegment_fileName allowAboveRoot res name :
  isFileName name → JS.normalizeSegment allowAboveRoot res name = res ++ [name].
Proof.
  intros (Hempty & Hdot & Hdots & _). unfold JS.normalizeSegment.
  rewrite decide_False by (by intros [|]). by rewrite decide_False.
Qed.

Lemma normalizeSegments_fileNames allowAboveRoot res names :
  Forall isFileName names →
  foldl (JS.normalizeSegment allowAboveRoot) res names = res ++ names.
Proof.
  intros Hnames. revert res.
  induction Hnames as [|name names Hname _ IH]; intros res; cbn [foldl].
  - by rewrite app_nil_r.
  - rewrite normalizeSegment_fileName by done. rewrite IH. by rewrite <- app_assoc.
Qed.

Lemma join_fileNames_not_empty res names :
  names ≠ [] → Forall isFileName names → JS.join "/" (res ++ names) ≠ "".
Proof.
  intros Hne Hnames.
  destruct (exists_last Hne) as (front & name & ->).
  apply Forall_app in Hnames as [_ Hname]. apply Forall_singleton in Hname as [Hname _].
  rewrite app_assoc, join_snoc.
  destruct (res ++ front); [done|].
  apply string_app_not_empty_r. by apply string_app_not_empty_l.
Qed.

(** [path.join(root, rel)] for a relative path made of file names: the
    segments kept of the root, then the file names. *)
Lemma pathJoin_fileNames root rel names :
  rel ≠ "" → JS.startsWithSlash rel = false → JS.endsWithSlash rel = false →
  JS.split "/" rel = names → names ≠ [] → Forall isFileName names →
  JS.pathJoin root rel
  = (if JS.startsWithSlash root then "/" else "")
    +:+ JS.join "/"
          (foldl (JS.normalizeSegment (negb (JS.startsWithSlash root))) []
             (JS.split "/" root) ++ names).
Proof.
  intros Hrel Hstart Hend Hsplit Hne Hnames.
  unfold JS.pathJoin, JS.pathJoinAll.
  destruct (decide (root = "")) as [->|Hroot].
  - rewrite filter_cons_False by naive_solver.
    rewrite filter_cons_True by done. rewrite filter_nil.
    cbn [JS.join]. unfold JS.pathNormalize.
    destruct rel as [|c rel]; [done|]. cbv beta iota zeta.
    rewrite Hstart, Hend. unfold JS.normalizeString. rewrite Hsplit.
    rewrite normalizeSegments_fileNames by done.
    pose proof (join_fileNames_not_empty [] names Hne Hnames) as Hjoin.
    assert (foldl (JS.normalizeSegment (negb (JS.startsWithSlash ""))) []
              (JS.split "/" "") = []) as -> by (by vm_compute).
    change ((if JS.startsWithSlash "" then "/" else "") +:+ ?p) with p.
    by destruct (JS.join "/" ([] ++ names)).
  - rewrite !filter_cons_True by done. rewrite filter_nil.
    rewrite join_cons. cbn [JS.join]. unfold JS.pathNormalize.
    assert (root +:+ "/" +:+ rel ≠ "") as Hjoined
      by (by apply string_app_not_empty_l).
    destruct (root +:+ "/" +:+ rel) as [|c joined] eqn:Heq; [done|].
    cbv beta iota zeta. rewrite <- Heq. clear c joined Heq Hjoined.
    rewrite startsWithSlash_app by done.
    rewrite endsWithSlash_app by (by apply string_app_not_empty_r).
    rewrite endsWithSlash_app by done. rewrite Hend.
    unfold JS.normalizeString.
    change ("/" +:+ rel) with (String "/" rel).
    rewrite split_app_any, foldl_app, Hsplit.
    rewrite normalizeSegments_fileNames by done.
    set (kept := foldl _ [] (JS.split "/" root)).
    pose proof (join_fileNames_not_empty kept names Hne Hnames) as Hjoin.
    destruct (JS.join "/" (kept ++ names)); [done|].
    by destruct (JS.startsWithSlash root).
Qed.

(** Lower-casing keeps a file name a file name. *)
Lemma lowerChar_separators c :
  (JS.lowerChar c = "/"%char → c = "/"%char) ∧ (JS.lowerChar c = "."%char → c = "."%char).
Proof. destruct c as [[] [] [] [] [] [] [] []]; split; vm_compute; congruence. Qed.

Lemma toLowerCase_fileName name : isFileName name → isFileName (JS.toLowerCase name).
Proof.
  intros (Hempty & Hdot & Hdots & Hlacks). split_and!.
  - by destruct name.
  - destruct name as [|c [|d name]]; try done. cbn. intros [= Hc].
    apply lowerChar_separators in Hc as ->. done.
  - destruct name as [|c [|d [|e name]]]; try done. cbn. intros [= Hc Hd].
    apply lowerChar_separators in Hc as ->. apply lowerChar_separators in Hd as ->. done.
  - clear Hempty Hdot Hdots. induction name as [|c name IH]; [done|].
    destruct Hlacks as [Hc Hlacks]. split; [|by apply IH].
    intros Heq. by apply lowerChar_separators in Heq.
Qed.

Lemma fileName_length_join (kept : list string) (name : string) :
  String.length (JS.join "/" (kept ++ [name]))
  = (match kept with
     | [] => 0
     | _ :: _ => String.length (JS.join "/" kept) + 1
     end + String.length name)%nat.
Proof.
  rewrite join_snoc. destruct kept; [done|].
  rewrite !string_length_app. cbn. lia.
Qed.

Section ChosenSettingsFile.
Context `{!Collaborators}.

(** The four candidate paths of a folder, in the order they are probed,
    are in order of length when the settings file has a file name. *)
Lemma candidates_ordered (root : string) :
  isFileName baseConfigName →
  StronglySorted (λ p q, String.length p ≤ String.length q)%nat
    (JS.pathJoin root <$> configFileLocations).
Proof.
  intros Hname. pose proof (toLowerCase_fileName _ Hname) as Hlower.
  assert (isFileName ".vscode") as Hvscode by (by vm_compute).
  set (kept := foldl (JS.normalizeSegment (negb (JS.startsWithSlash root))) []
                 (JS.split "/" root)).
  assert (∀ name, isFileName name →
            JS.pathJoin root name
            = (if JS.startsWithSlash root then "/" else "")
              +:+ JS.join "/" (kept ++ [name])) as Hplain.
  { intros name Hn. pose proof Hn as (Hempty & _ & _ & Hlacks).
    apply pathJoin_fileNames.
    - done.
    - by apply lacks_startsWithSlash.
    - by apply lacks_endsWithSlash.
    - by apply split_lacks_id.
    - done.
    - by apply Forall_singleton. }
  assert (∀ name, isFileName name →
            JS.pathJoin root (".vscode/" +:+ name)
            = (if JS.startsWithSlash root then "/" else "")
              +:+ JS.join "/" ((kept ++ [".vscode"]) ++ [name])) as Hunder.
  { intros name Hn. pose proof Hn as (Hempty & _ & _ & Hlacks).
    rewrite <- app_assoc. apply pathJoin_fileNames.
    - done.
    - done.
    - rewrite endsWithSlash_app by done. by apply lacks_endsWithSlash.
    - change (".vscode/" +:+ name) with (".vscode" +:+ String "/" name).
      rewrite split_app_any. by rewrite (split_lacks_id _ name).
    - done.
    - apply Forall_cons. split; [done|]. by apply Forall_singleton. }
  unfold configFileLocations. cbn [fmap list_fmap].
  rewrite !Hplain, !Hunder by done.
  clear Hplain Hunder. clearbody kept.
  repeat first [apply SSorted_nil | apply SSorted_cons | apply List.Forall_nil
               | apply List.Forall_cons];
    rewrite !string_length_app, !fileName_length_join, ?toLowerCase_length;
    destruct kept; cbn; lia.
Qed.

(** For a document of a workspace folder, the folder's four candidates
    are probed. *)
Lemma findSettingsFiles_for_document
    (u : Uri) (h : Host) (wf : list WorkspaceFolder) (folder : WorkspaceFolder) :
  workspaceFolders h = Some wf → wf ≠ [] → getWorkspaceFolder wf u = Some folder →
  findSettingsFiles (Some u) h
  = JS.Normal (λ h', JS.resolve
      (uriFile <$> filter (λ filename, filename ∈ existingFiles h')
         (JS.pathJoin (fsPath folder) <$> configFileLocations)) h').
Proof.
  intros Hwf Hne Hfolder.
  unfold findSettingsFiles, hasWorkspaceLocation. rewrite Hwf.
  destruct wf as [|f wf']; [done|]. by rewrite Hfolder.
Qed.

(** X21. For a document of a workspace folder, whatever the folder's
    path, and a settings file whose name is a file name,
    [findExistingSettingsFileLocation] resolves with the first of the
    folder's four candidate paths that exists, in the order of
    [configFileLocations]: a settings file at the folder's root is chosen
    before one under [.vscode], and [undefined] means that none of the four
    exists. *)
Theorem findExistingSettingsFileLocation_prefers_root
    (u : Uri) (h : Host) (wf : list WorkspaceFolder) (folder : WorkspaceFolder) :
  isFileName baseConfigName →
  workspaceFolders h = Some wf → wf ≠ [] → getWorkspaceFolder wf u = Some folder →
  let root := fsPath folder in
  let candidates :=
    [ JS.pathJoin root baseConfigName;
      JS.pathJoin root (JS.toLowerCase baseConfigName);
      JS.pathJoin root (".vscode/" +:+ baseConfigName);
      JS.pathJoin root (".vscode/" +:+ JS.toLowerCase baseConfigName) ] in
  ∃ location,
    findExistingSettingsFileLocation (Some u) h = JS.Normal location
    ∧ ∀ h', location h'
            = JS.resolve (head (filter (λ p, p ∈ existingFiles h') candidates)) h'.
Proof.
  intros Hname Hwf Hne Hfolder root candidates.
  pose proof (findSettingsFiles_for_document u h wf folder Hwf Hne Hfolder) as Hfind.
  unfold findExistingSettingsFileLocation. rewrite Hfind.
  eexists. split; [done|]. intros h'.
  unfold JS.thenValue, JS.andThen, JS.resolve.
  cbn [JS.outcome JS.world JS.detached app].
  unfold uriFile, uriFsPath. rewrite !list_fmap_id.
  rewrite sortByLength_head_ordered; [done|].
  by apply StronglySorted_filter, (candidates_ordered root).
Qed.


End ChosenSettingsFile.

(** ** The further properties on the concrete world *)

(** The candidates of the open folder, and the promise that probes them;
    a folder path with a trailing separator is normalized by [path.join]. *)
Lemma findSettingsFiles_in_project :
  (∃ found uris,
     @findSettingsFiles obliging (Some "/proj/src/main.ts") projectHost = JS.Normal found
     ∧ found projectHost = JS.resolve uris projectHost
     ∧ "/proj/cspell.json" ∈ uris
     ∧ "/proj/.vscode/cspell.json" ∈ uris)
  ∧ (∃ found uris,
       @findSettingsFiles obliging (Some "/proj/src/main.ts") slashHost = JS.Normal found
       ∧ found slashHost = JS.resolve uris slashHost
       ∧ "/proj/.vscode/cspell.json" ∈ uris).
Proof.
  split.
  - set (found := λ h' : Host, JS.resolve
           (uriFile <$> filter (λ filename, filename ∈ existingFiles h')
              (JS.pathJoin "/proj" <$> @configFileLocations obliging)) h').
    destruct (@findSettingsFiles_finds_existing_candidates obliging
                (Some "/proj/src/main.ts") projectHost [ {| fsPath := "/proj" |} ]
                found projectHost eq_refl ltac:(discriminate) eq_refl)
      as (uris & Hfound & Hmem).
    exists found, uris. split; [reflexivity|]. split; [exact Hfound|].
    split; apply Hmem.
    + split; [apply (bool_decide_unpack _); by vm_compute|].
      exists {| fsPath := "/proj" |}, "cspell.json".
      split; [left|]. split; [left | reflexivity].
    + split; [apply (bool_decide_unpack _); by vm_compute|].
      exists {| fsPath := "/proj" |}, ".vscode/cspell.json".
      split; [left|]. split; [do 2 right; left | reflexivity].
  - set (found := λ h' : Host, JS.resolve
           (uriFile <$> filter (λ filename, filename ∈ existingFiles h')
              (JS.pathJoin "/proj/" <$> @configFileLocations obliging)) h').
    destruct (@findSettingsFiles_finds_existing_candidates obliging
                (Some "/proj/src/main.ts") slashHost [ {| fsPath := "/proj/" |} ]
                found slashHost eq_refl ltac:(discriminate) eq_refl)
      as (uris & Hfound & Hmem).
    exists found, uris. split; [reflexivity|]. split; [exact Hfound|].
    apply Hmem. split; [apply (bool_decide_unpack _); by vm_compute|].
    exists {| fsPath := "/proj/" |}, ".vscode/cspell.json".
    split; [left|]. split; [do 2 right; left | reflexivity].
Defined.

(** Enabling and disabling a language for a document of no open folder. *)
Lemma language_update_for_stray_document :
  @findSettingsFiles obliging (Some "/elsewhere/notes.md") freshHost = JS.Throw JS.TypeError
  ∧ JS.outcome (@enableLanguage obliging strayTarget "rust" freshHost)
    = JS.Rejected JS.TypeError
  ∧ updates (JS.world (@enableLanguage obliging strayTarget "rust" freshHost))
    = [MkUpdate Key.enabledLanguageIds (Some ["rust"]) strayTarget]
  ∧ JS.outcome (@disableLanguage obliging strayTarget "rust" freshHost)
    = JS.Rejected JS.TypeError
  ∧ fileCalls (JS.world (@disableLanguage obliging strayTarget "rust" freshHost)) = [].
Proof.
  destruct (@language_update_outside_workspace obliging strayTarget "rust"
              "/elsewhere/notes.md" freshHost [ {| fsPath := "/proj" |} ]
              eq_refl ltac:(discriminate) eq_refl eq_refl eq_refl)
    as (Hthrow & Henable & Hdisable).
  destruct (Henable ["rust"] ltac:(by vm_compute)) as (Hrejected & Hupdates & _).
  destruct (Hdisable [] ltac:(by vm_compute)) as (Hrejected' & _ & _ & Hcalls).
  split_and!.
  - exact Hthrow.
  - exact Hrejected.
  - exact Hupdates.
  - exact Hrejected'.
  - exact Hcalls.
Defined.

(** Of the two settings files of the project, found root first. *)
Lemma findExistingSettingsFileLocation_in_project :
  ∃ location choice,
    @findExistingSettingsFileLocation obliging None projectHost = JS.Normal location
    ∧ JS.outcome (location projectHost) = JS.Resolved choice
    ∧ match choice with
      | None => False
      | Some p =>
          ∃ before after,
            [ "/proj/cspell.json"; "/proj/cspell.json";
              "/proj/.vscode/cspell.json"; "/proj/.vscode/cspell.json" ]
            = before ++ p :: after
            ∧ Forall (λ q, String.length p < String.length q)%nat before
            ∧ Forall (λ q, String.length p ≤ String.length q)%nat after
      end.
Proof.
  destruct (@findExistingSettingsFileLocation_first_shortest obliging None projectHost
              (λ h', JS.resolve
                 (uriFile <$> filter (λ filename, filename ∈ existingFiles h')
                    (JS.pathJoin "/proj" <$> @configFileLocations obliging)) h')
              projectHost
              [ "/proj/cspell.json"; "/proj/cspell.json";
                "/proj/.vscode/cspell.json"; "/proj/.vscode/cspell.json" ]
              eq_refl ltac:(by vm_compute))
    as (location & choice & Hlocation & Hchoice & Hshape).
  exists location, choice. split; [exact Hlocation|]. split; [exact Hchoice|].
  destruct choice as [p|]; [exact Hshape | discriminate Hshape].
Defined.

(** With no settings file yet, the default location under [.vscode]; and
    with a file there, that file, whatever trailing separator the folder's
    path has. *)
Lemma findSettingsFileLocation_in_fresh_project :
  (∃ location,
     @findSettingsFileLocation obliging freshHost = JS.Normal location
     ∧ location freshHost = JS.resolve (Some "/proj/.vscode/cspell.json") freshHost)
  ∧ (∃ location p,
       @findSettingsFileLocation obliging slashHost = JS.Normal location
       ∧ location slashHost = JS.resolve (Some p) slashHost
       ∧ p ∈ existingFiles slashHost).
Proof.
  split.
  - destruct (@findSettingsFileLocation_always_locates obliging freshHost
                {| fsPath := "/proj" |} [] eq_refl ltac:(discriminate) ltac:(discriminate))
      as (_ & location & Hlocation & Hresolves).
    exists location. split; [exact Hlocation|].
    destruct (Hresolves freshHost eq_refl) as (p & Hp & [[Hexists _] | [-> _]] & _).
    + by apply not_elem_of_empty in Hexists.
    + exact Hp.
  - destruct (@findSettingsFileLocation_always_locates obliging slashHost
                {| fsPath := "/proj/" |} [] eq_refl ltac:(discriminate) ltac:(discriminate))
      as (_ & location & Hlocation & Hresolves).
    destruct (Hresolves slashHost eq_refl) as (p & Hp & _ & Hexists).
    exists location, p. split; [exact Hlocation|]. split; [exact Hp|].
    apply Hexists. apply (bool_decide_unpack _). by vm_compute.
Defined.

(** With no folder open, no settings file is read. *)
Lemma loadTheSettingsFile_rootless :
  ∃ load,
    @loadTheSettingsFile obliging (λ _, JS.reject (JS.HostError "ENOENT")) rootlessHost
    = JS.Normal load
    ∧ load rootlessHost = JS.resolve None rootlessHost.
Proof.
  destruct (@loadTheSettingsFile_without_workspace_root obliging
              (λ _, JS.reject (JS.HostError "ENOENT")) rootlessHost (or_introl eq_refl))
    as (location & load & _ & Hload & Hresolves).
  exists load. split; [exact Hload|]. exact (proj2 (Hresolves rootlessHost eq_refl)).
Defined.

(** Materializing the user's "en" in the workspace, and removing it again. *)
Lemma overrideLocal_on_off_in_workspace :
  let h := configured Key.language "en" Target.Global freshHost in
  let first := @overrideLocal obliging true Target.Workspace h in
  let second := @overrideLocal obliging false Target.Workspace (JS.world first) in
  inspectSettingFromVSConfig Key.language (Some "/proj/src/main.ts") (JS.world first)
  = {| defaultValue := None; globalValue := Some "en"; workspaceValue := Some "en";
       workspaceFolderValue := None |}
  ∧ inspectSettingFromVSConfig Key.language (Some "/proj/src/main.ts") (JS.world second)
    = inspectSettingFromVSConfig Key.language (Some "/proj/src/main.ts") h.
Proof.
  split; [by vm_compute|].
  exact (@overrideLocal_round_trip obliging Target.Workspace
           (configured Key.language "en" Target.Global freshHost)
           eq_refl eq_refl eq_refl string Key.language (Some "/proj/src/main.ts")).
Defined.

(** The user toggles globally while the workspace has the checker off. *)
Lemma toggleEnableSpellChecker_masked :
  let h := configured Key.enabled false Target.Workspace freshHost in
  getSettingFromVSConfig Key.enabled None
    (JS.world (@toggleEnableSpellChecker obliging Target.Global h)) = Some false
  ∧ updates (JS.world (@toggleEnableSpellChecker obliging Target.Global
                         (JS.world (@toggleEnableSpellChecker obliging Target.Global h))))
    = [MkUpdate Key.enabled (Some true) Target.Global;
       MkUpdate Key.enabled (Some true) Target.Global].
Proof.
  destruct (@toggleEnableSpellChecker_masked_by_workspace obliging false
              (configured Key.enabled false Target.Workspace freshHost) eq_refl)
    as (_ & Hseen & Hupdates).
  split; [exact Hseen | exact Hupdates].
Defined.


(** "fr", known from before and listed nowhere now, next to "de", which the
    workspace lists. *)
Lemma composeLocalInfo_stale_and_current :
  let h := configured Key.language "de" Target.Workspace freshHost in
  let known :=
    snd (InfoViewer.composeLocalInfo plainNames unit offeredDictionaries offeredLocals
           languageInUse codesOf sameName None None h staleLocals) in
  let fr := {| InfoViewer.code := "fr"; InfoViewer.name := "fr";
               InfoViewer.dictionaries := [];
               InfoViewer.enabled := None;
               InfoViewer.isInUserSettings := None;
               InfoViewer.isInWorkspaceSettings := Some false;
               InfoViewer.isInFolderSettings := None |} in
  JS.mapKeys known = ["fr"; "de"; "en"]
  ∧ JS.mapGet known "fr" = Some fr
  ∧ InfoViewer.enabled fr = None
  ∧ InfoViewer.isInUserSettings fr = None
  ∧ InfoViewer.isInWorkspaceSettings fr = Some false
  ∧ InfoViewer.isInFolderSettings fr = None.
Proof.
  intros h known fr.
  assert (JS.mapGet known "fr" = Some fr) as Hfr by (by vm_compute).
  split; [by vm_compute|]. split; [exact Hfr|].
  destruct (@composeLocalInfo_flags_are_current plainNames unit offeredDictionaries
              offeredLocals languageInUse codesOf sameName None None h staleLocals
              "fr" fr Hfr) as (Henabled & Huser & Hworkspace & Hfolder & _).
  split_and!.
  - exact Henabled.
  - exact Huser.
  - exact Hworkspace.
  - exact Hfolder.
Defined.

(** "en" enabled and disabled again where no language was set. *)
Lemma enableLocal_disableLocal_en :
  let first := @enableLocal obliging Target.Global "en" freshHost in
  let second := @disableLocal obliging Target.Global "en" (JS.world first) in
  inspectScopedSettingFromVSConfig Key.language (configTargetToScope Target.Global)
    (JS.world first) = Some ",en"
  ∧ inspectScopedSettingFromVSConfig Key.language (configTargetToScope Target.Global)
      (JS.world second) = None.
Proof.
  destruct (@enableLocal_then_disableLocal obliging Target.Global "en" freshHost
              ltac:(by vm_compute) ltac:(by vm_compute) eq_refl eq_refl)
    as (Hfirst & _ & Hunset).
  split; [exact Hfirst|].
  apply Hunset; [reflexivity | by vm_compute | reflexivity].
Defined.

(** Of the project's two settings files, the one at the root; and the one
    under [.vscode] where it is the only one. *)
Lemma findExistingSettingsFileLocation_project_root :
  (∃ location,
     @findExistingSettingsFileLocation obliging (Some "/proj/src/main.ts") projectHost
     = JS.Normal location
     ∧ location projectHost = JS.resolve (Some "/proj/cspell.json") projectHost)
  ∧ (∃ location,
       @findExistingSettingsFileLocation obliging (Some "/proj/src/main.ts") slashHost
       = JS.Normal location
       ∧ location slashHost = JS.resolve (Some "/proj/.vscode/cspell.json") slashHost).
Proof.
  split.
  - destruct (@findExistingSettingsFileLocation_prefers_root obliging "/proj/src/main.ts"
                projectHost [ {| fsPath := "/proj" |} ] {| fsPath := "/proj" |}
                ltac:(by vm_compute) eq_refl ltac:(discriminate) eq_refl)
      as (location & Hlocation & Hresolves).
    exists location. split; [exact Hlocation|].
    rewrite (Hresolves projectHost). by vm_compute.
  - destruct (@findExistingSettingsFileLocation_prefers_root obliging "/proj/src/main.ts"
                slashHost [ {| fsPath := "/proj/" |} ] {| fsPath := "/proj/" |}
                ltac:(by vm_compute) eq_refl ltac:(discriminate) eq_refl)
      as (location & Hlocation & Hresolves).
    exists location. split; [exact Hlocation|].
    rewrite (Hresolves slashHost). by vm_compute.
Defined.

